(** * The list-view engine of the course catalogue (pages/index.tsx)

    A shallow embedding of the [Home] page component and of its
    [Pagination] child: the filter predicate, the sort comparator, the
    page-number window and the effect that keeps the page number in range.

    JavaScript numbers are IEEE 754 binary64 values and are modelled by the
    kernel's primitive floats, so [NaN], the two zeros and the infinities
    behave as they do in the program.  Page sizes, page numbers and array
    lengths are integers far below 2^53; they are modelled in [Z]. *)

From Stdlib Require Import ZArith List Bool Ascii String Lia Floats.
From Stdlib Require Import Permutation Sorted.
Import ListNotations.

Local Open Scope Z_scope.

(** ** JavaScript numbers *)

Module JS.

Definition number := float.

(** [ToBoolean] on a number: [0], [-0] and [NaN] are falsy. *)
Definition truthy (x : number) : bool :=
  negb (PrimFloat.is_zero x || PrimFloat.is_nan x).

(** [x || d] where [x : number | undefined]; [None] is [undefined]. *)
Definition or_default (x : option number) (d : number) : number :=
  match x with
  | Some v => if truthy v then v else d
  | None => d
  end.

(** [x >= y] and [x <= y]; both are [false] as soon as one side is NaN. *)
Definition ge (x y : number) : bool := PrimFloat.leb y x.
Definition le (x y : number) : bool := PrimFloat.leb x y.
Definition lt (x y : number) : bool := PrimFloat.ltb x y.

Definition Infinity : number := PrimFloat.infinity.
Definition NaN : number := PrimFloat.nan.

End JS.

Abbreviation number := JS.number.
Notation "x '|||' d" := (JS.or_default x d) (at level 50, left associativity).

(** ** Data model *)

(** The fields of [Course] that the page reads.  A numeric attribute is
    [number | null]; [None] is [null].  [between] receives [reviewCount] at
    the same type, so it is modelled like the other three. *)
Record Course := mkCourse {
  id : string;
  name : string;
  rating : option number;
  difficulty : option number;
  workload : option number;
  reviewCount : option number;
  isDeprecated : bool;
  isFoundational : bool
}.

Inductive attribute := Name | Difficulty | ReviewCount | Rating | Workload.
Inductive direction := desc | asc.

Record SortConfig := mkSort {
  sort_attribute : attribute;
  sort_direction : direction
}.

(** The state variables of [Home], one field per [useState]. *)
Record ViewState := mkState {
  sort : SortConfig;
  minReviewCount : option number;
  maxReviewCount : option number;
  minRating : option number;
  maxRating : option number;
  minDifficulty : option number;
  maxDifficulty : option number;
  minWorkload : option number;
  maxWorkload : option number;
  hideDeprecated : bool;
  onlyShowFoundational : bool;
  pageSize : Z;
  pageNumber : Z
}.

(** The initial values given to [useState]. *)
Definition initialState : ViewState := {|
  sort := {| sort_attribute := ReviewCount; sort_direction := desc |};
  minReviewCount := Some 1%float;
  maxReviewCount := None;
  minRating := None;
  maxRating := None;
  minDifficulty := None;
  maxDifficulty := None;
  minWorkload := None;
  maxWorkload := None;
  hideDeprecated := false;
  onlyShowFoundational := false;
  pageSize := 10;
  pageNumber := 0
|}.

(** ** The filter predicate *)

Definition between (value : option number) (min max : number) : bool :=
  match value with
  | None => true
  | Some v => JS.ge v min && JS.le v max
  end.

(** The callback passed to [courses.filter]. *)
Definition keeps (st : ViewState) (c : Course) : bool :=
  between (reviewCount c)
          (minReviewCount st ||| 0%float) (maxReviewCount st ||| JS.Infinity)
  && between (rating c) (minRating st ||| 1%float) (maxRating st ||| 5%float)
  && between (difficulty c)
             (minDifficulty st ||| 1%float) (maxDifficulty st ||| 5%float)
  && between (workload c)
             (minWorkload st ||| 1%float) (maxWorkload st ||| 100%float)
  && (if hideDeprecated st then Bool.eqb (isDeprecated c) false else true)
  && (if onlyShowFoundational st then Bool.eqb (isFoundational c) true
      else true).

Definition filtered (st : ViewState) (courses : list Course) : list Course :=
  filter (keeps st) courses.

(** ** Effective bounds

    The eight bound variables, addressed by attribute and side, together
    with the literal that follows [||] in the corresponding argument of
    [between]. *)

Inductive numeric := NReviewCount | NRating | NDifficulty | NWorkload.
Inductive side := Lower | Upper.

Definition value_of (a : numeric) (c : Course) : option number :=
  match a with
  | NReviewCount => reviewCount c
  | NRating => rating c
  | NDifficulty => difficulty c
  | NWorkload => workload c
  end.

Definition bound (a : numeric) (s : side) (st : ViewState) : option number :=
  match a, s with
  | NReviewCount, Lower => minReviewCount st
  | NReviewCount, Upper => maxReviewCount st
  | NRating, Lower => minRating st
  | NRating, Upper => maxRating st
  | NDifficulty, Lower => minDifficulty st
  | NDifficulty, Upper => maxDifficulty st
  | NWorkload, Lower => minWorkload st
  | NWorkload, Upper => maxWorkload st
  end.

Definition domain_default (a : numeric) (s : side) : number :=
  match a, s with
  | NReviewCount, Lower => 0%float
  | NReviewCount, Upper => JS.Infinity
  | NRating, Lower => 1%float
  | NRating, Upper => 5%float
  | NDifficulty, Lower => 1%float
  | NDifficulty, Upper => 5%float
  | NWorkload, Lower => 1%float
  | NWorkload, Upper => 100%float
  end.

Definition effective (a : numeric) (s : side) (st : ViewState) : number :=
  bound a s st ||| domain_default a s.

(** The record predicate in the words of the specification (4.1, 4.2): a
    range filter passes when the value is absent or lies within the
    inclusive bounds, and the two toggles gate on the course's flags. *)

Definition RangeFilter_passes (value : option number) (min max : number)
  : Prop :=
  match value with
  | None => True
  | Some v => JS.le min v = true /\ JS.le v max = true
  end.

Definition satisfies_all (st : ViewState) (c : Course) : Prop :=
  (forall a, RangeFilter_passes (value_of a c)
                                (effective a Lower st) (effective a Upper st))
  /\ (hideDeprecated st = true -> isDeprecated c = false)
  /\ (onlyShowFoundational st = true -> isFoundational c = true).

Definition violates_one (st : ViewState) (c : Course) : Prop :=
  (exists a, ~ RangeFilter_passes (value_of a c)
                                  (effective a Lower st) (effective a Upper st))
  \/ (hideDeprecated st = true /\ isDeprecated c = true)
  \/ (onlyShowFoundational st = true /\ isFoundational c = false).

(** The effective bound in the words of the specification (4.1): an
    absent bound, and a bound whose text did not parse (NaN), fall back to
    the domain default; any other number, zero included, is the bound. *)
Definition spec_effective (a : numeric) (s : side) (st : ViewState)
  : number :=
  match bound a s st with
  | None => domain_default a s
  | Some v => if PrimFloat.is_nan v then domain_default a s else v
  end.

(** The record predicate of the specification with those bounds. *)
Definition satisfies_all_spec (st : ViewState) (c : Course) : Prop :=
  (forall a, RangeFilter_passes (value_of a c) (spec_effective a Lower st)
                                (spec_effective a Upper st))
  /\ (hideDeprecated st = true -> isDeprecated c = false)
  /\ (onlyShowFoundational st = true -> isFoundational c = true).

(** ** State setters and input handlers *)

Definition setSort (v : SortConfig) (st : ViewState) : ViewState :=
  mkState v (minReviewCount st) (maxReviewCount st) (minRating st)
          (maxRating st) (minDifficulty st) (maxDifficulty st)
          (minWorkload st) (maxWorkload st) (hideDeprecated st)
          (onlyShowFoundational st) (pageSize st) (pageNumber st).

Definition setMinReviewCount (v : number) (st : ViewState) : ViewState :=
  mkState (sort st) (Some v) (maxReviewCount st) (minRating st)
          (maxRating st) (minDifficulty st) (maxDifficulty st)
          (minWorkload st) (maxWorkload st) (hideDeprecated st)
          (onlyShowFoundational st) (pageSize st) (pageNumber st).

Definition setMaxReviewCount (v : number) (st : ViewState) : ViewState :=
  mkState (sort st) (minReviewCount st) (Some v) (minRating st)
          (maxRating st) (minDifficulty st) (maxDifficulty st)
          (minWorkload st) (maxWorkload st) (hideDeprecated st)
          (onlyShowFoundational st) (pageSize st) (pageNumber st).

Definition setMinRating (v : number) (st : ViewState) : ViewState :=
  mkState (sort st) (minReviewCount st) (maxReviewCount st) (Some v)
          (maxRating st) (minDifficulty st) (maxDifficulty st)
          (minWorkload st) (maxWorkload st) (hideDeprecated st)
          (onlyShowFoundational st) (pageSize st) (pageNumber st).

Definition setMaxRating (v : number) (st : ViewState) : ViewState :=
  mkState (sort st) (minReviewCount st) (maxReviewCount st) (minRating st)
          (Some v) (minDifficulty st) (maxDifficulty st)
          (minWorkload st) (maxWorkload st) (hideDeprecated st)
          (onlyShowFoundational st) (pageSize st) (pageNumber st).

Definition setMinDifficulty (v : number) (st : ViewState) : ViewState :=
  mkState (sort st) (minReviewCount st) (maxReviewCount st) (minRating st)
          (maxRating st) (Some v) (maxDifficulty st)
          (minWorkload st) (maxWorkload st) (hideDeprecated st)
          (onlyShowFoundational st) (pageSize st) (pageNumber st).

Definition setMaxDifficulty (v : number) (st : ViewState) : ViewState :=
  mkState (sort st) (minReviewCount st) (maxReviewCount st) (minRating st)
          (maxRating st) (minDifficulty st) (Some v)
          (minWorkload st) (maxWorkload st) (hideDeprecated st)
          (onlyShowFoundational st) (pageSize st) (pageNumber st).

Definition setMinWorkload (v : number) (st : ViewState) : ViewState :=
  mkState (sort st) (minReviewCount st) (maxReviewCount st) (minRating st)
          (maxRating st) (minDifficulty st) (maxDifficulty st)
          (Some v) (maxWorkload st) (hideDeprecated st)
          (onlyShowFoundational st) (pageSize st) (pageNumber st).

Definition setMaxWorkload (v : number) (st : ViewState) : ViewState :=
  mkState (sort st) (minReviewCount st) (maxReviewCount st) (minRating st)
          (maxRating st) (minDifficulty st) (maxDifficulty st)
          (minWorkload st) (Some v) (hideDeprecated st)
          (onlyShowFoundational st) (pageSize st) (pageNumber st).

Definition setHideDeprecated (v : bool) (st : ViewState) : ViewState :=
  mkState (sort st) (minReviewCount st) (maxReviewCount st) (minRating st)
          (maxRating st) (minDifficulty st) (maxDifficulty st)
          (minWorkload st) (maxWorkload st) v
          (onlyShowFoundational st) (pageSize st) (pageNumber st).

Definition setOnlyShowFoundational (v : bool) (st : ViewState) : ViewState :=
  mkState (sort st) (minReviewCount st) (maxReviewCount st) (minRating st)
          (maxRating st) (minDifficulty st) (maxDifficulty st)
          (minWorkload st) (maxWorkload st) (hideDeprecated st)
          v (pageSize st) (pageNumber st).

Definition setPageSize (v : Z) (st : ViewState) : ViewState :=
  mkState (sort st) (minReviewCount st) (maxReviewCount st) (minRating st)
          (maxRating st) (minDifficulty st) (maxDifficulty st)
          (minWorkload st) (maxWorkload st) (hideDeprecated st)
          (onlyShowFoundational st) v (pageNumber st).

Definition setPageNumber (v : Z) (st : ViewState) : ViewState :=
  mkState (sort st) (minReviewCount st) (maxReviewCount st) (minRating st)
          (maxRating st) (minDifficulty st) (maxDifficulty st)
          (minWorkload st) (maxWorkload st) (hideDeprecated st)
          (onlyShowFoundational st) (pageSize st) v.

(** The [onBlur] handler of the input bound to attribute [a], side [s].
    [parsed] is the result of [parseFloat(e.currentTarget.value)]: a finite
    number, an infinity, or [NaN] when the text does not start with a
    number. *)
Definition onBlur (a : numeric) (s : side) (parsed : number)
  : ViewState -> ViewState :=
  match a, s with
  | NReviewCount, Lower => setMinReviewCount parsed
  | NReviewCount, Upper => setMaxReviewCount parsed
  | NRating, Lower => setMinRating parsed
  | NRating, Upper => setMaxRating parsed
  | NDifficulty, Lower => setMinDifficulty parsed
  | NDifficulty, Upper => setMaxDifficulty parsed
  | NWorkload, Lower => setMinWorkload parsed
  | NWorkload, Upper => setMaxWorkload parsed
  end.

Definition toggleSort (a : attribute) (st : ViewState) : ViewState :=
  match sort_attribute (sort st), a with
  | Name, Name | Difficulty, Difficulty | ReviewCount, ReviewCount
  | Rating, Rating | Workload, Workload =>
      setSort {| sort_attribute := a;
                 sort_direction := match sort_direction (sort st) with
                                   | asc => desc
                                   | desc => asc
                                   end |} st
  | _, _ => setSort {| sort_attribute := a; sort_direction := asc |} st
  end.

(** ** The sort comparator *)

(** [c[attribute]] for the four numeric attributes.  The comparator tests
    [attribute === "name"] first, so the [Name] row is never consulted. *)
Definition numeric_field (attr : attribute) (c : Course) : option number :=
  match attr with
  | Name => None
  | Difficulty => difficulty c
  | ReviewCount => reviewCount c
  | Rating => rating c
  | Workload => workload c
  end.

Definition ordering (d : direction) : number :=
  match d with
  | asc => 1%float
  | desc => (-1)%float
  end.

Section Comparator.

(** [String.prototype.localeCompare] depends on the host's collation; it
    is a parameter of the model. *)
Variable localeCompare : string -> string -> number.

(** The callback passed to [sort]. *)
Definition sortComparator (s : SortConfig) (a b : Course) : number :=
  match sort_attribute s with
  | Name =>
      (localeCompare (name a) (name b) * ordering (sort_direction s))%float
  | attr =>
      match numeric_field attr a with
      | None => 1%float
      | Some x =>
          match numeric_field attr b with
          | None => (-1)%float
          | Some y => ((x - y) * ordering (sort_direction s))%float
          end
      end
  end.

End Comparator.

(** ** [Array.prototype.sort]

    The language requires the sort to be stable but leaves the order
    implementation-defined when the comparator is not consistent.  The
    model is a stable insertion sort that takes the elements in input order
    and walks each one leftwards from the end of the sorted prefix.  Two
    conventions exist for the test that lets an element pass its left
    neighbour; they give the same result whenever the comparator is
    antisymmetric ([conventions_agree] below). *)

Module ArraySort.

Inductive convention :=
| later_first     (* move while comparefn(element, neighbour) < 0 *)
| earlier_first.  (* stop when comparefn(neighbour, element) <= 0 *)

Section Sort.

Context {A : Type}.
Variable comparefn : A -> A -> number.

(** [SortCompare]: a [NaN] from the comparator counts as [+0]. *)
Definition SortCompare (x y : A) : number :=
  let v := comparefn x y in
  if PrimFloat.is_nan v then 0%float else v.

Definition passes (cv : convention) (x neighbour : A) : bool :=
  match cv with
  | later_first => JS.lt (SortCompare x neighbour) 0%float
  | earlier_first => negb (JS.le (SortCompare neighbour x) 0%float)
  end.

(** [prefix] is the sorted prefix, last element first. *)
Fixpoint insert (cv : convention) (x : A) (prefix : list A) : list A :=
  match prefix with
  | [] => [x]
  | p :: ps => if passes cv x p then p :: insert cv x ps
               else x :: p :: ps
  end.

Definition sort_from (cv : convention) (l prefix : list A) : list A :=
  fold_left (fun acc x => insert cv x acc) l prefix.

Definition sort (cv : convention) (l : list A) : list A :=
  rev (sort_from cv l []).

End Sort.

End ArraySort.

(** [x] occurs somewhere before [y] in [l]. *)
Definition precedes {A : Type} (x y : A) (l : list A) : Prop :=
  exists l1 l2 l3, l = l1 ++ x :: l2 ++ y :: l3.

(** [current]: the filtered and sorted collection. *)
Definition current (localeCompare : string -> string -> number)
           (cv : ArraySort.convention) (st : ViewState)
           (courses : list Course) : list Course :=
  ArraySort.sort (sortComparator localeCompare (sort st)) cv
                 (filtered st courses).

(** ** Paging *)

(** [Array.prototype.slice] on integer arguments. *)
Definition Array_slice {A : Type} (l : list A) (start stop : Z) : list A :=
  let len := Z.of_nat (List.length l) in
  let k := if start <? 0 then Z.max (len + start) 0 else Z.min start len in
  let final := if stop <? 0 then Z.max (len + stop) 0 else Z.min stop len in
  firstn (Z.to_nat (Z.max (final - k) 0)) (skipn (Z.to_nat k) l).

(** The visible page. *)
Definition slice (st : ViewState) (cur : list Course) : list Course :=
  Array_slice cur (pageNumber st * pageSize st)
              (pageNumber st * pageSize st + pageSize st).

(** The body of the [useEffect]; [Math.floor(n / d)] is [n / d] in [Z] for a
    non-zero [d], and every page size on offer is positive. *)
Definition pageEffect (cur : list Course) (st : ViewState) : ViewState :=
  if pageSize st * pageNumber st >=? Z.of_nat (List.length cur)
  then setPageNumber (Z.of_nat (List.length cur) / pageSize st) st
  else st.

(** The invariant of the specification (4.5). *)
Definition page_in_range (cur : list Course) (st : ViewState) : Prop :=
  pageNumber st * pageSize st < Z.max (Z.of_nat (List.length cur)) 1.

(** ** The [Pagination] component *)

Definition pageSizes : list Z := [10; 25; 50].

(** [Math.ceil(resultCount / pageSize)] for a positive page size. *)
Definition totalPages (resultCount pageSize : Z) : Z :=
  - ((- resultCount) / pageSize).

Definition hasNextPage (pageSize pageNumber resultCount : Z) : bool :=
  pageNumber * pageSize + pageSize - 1 <=? resultCount.

Definition hasPrevPage (pageNumber : Z) : bool := negb (pageNumber =? 0).

(** [hasNextPage && onPageChange(pageNumber + 1)], with [onPageChange]
    bound to [setPageNumber]. *)
Definition incrementPageNumber (resultCount : Z) (st : ViewState)
  : ViewState :=
  if hasNextPage (pageSize st) (pageNumber st) resultCount
  then setPageNumber (pageNumber st + 1) st
  else st.

Definition decrementPageNumber (st : ViewState) : ViewState :=
  if hasPrevPage (pageNumber st) then setPageNumber (pageNumber st - 1) st
  else st.

(** [Array(n).fill(0).map((_, i) => i)]; [Array(n)] throws a [RangeError]
    for a negative length, which is [None] here. *)
Definition indices (n : Z) : option (list Z) :=
  if n <? 0 then None
  else Some (map Z.of_nat (seq 0 (Z.to_nat n))).

Definition paginationChunks (totalPages pageNumber : Z)
  : option (list (list Z)) :=
  if totalPages <=? 7 then
    option_map (fun chunk => [chunk]) (indices totalPages)
  else if pageNumber <=? 3 then
    Some [[0; 1; 2; 3; 4]; [totalPages - 1]]
  else if totalPages - pageNumber <=? 4 then
    Some [[0]; map (fun v => totalPages - v) [5; 4; 3; 2; 1]]
  else
    Some [[0]; [pageNumber - 1; pageNumber; pageNumber + 1];
          [totalPages - 1]].

(** The page labels and the number of ellipsis gaps that the chunks
    render to: every chunk but the last is followed by one gap. *)
Definition rendered_pages (chunks : list (list Z)) : list Z := List.concat chunks.
Definition rendered_gaps (chunks : list (list Z)) : nat :=
  pred (List.length chunks).

(** The page window in the words of the specification (4.4). *)
Definition pages_from_to (lo hi : Z) : list Z :=
  map (fun k => lo + Z.of_nat k) (seq 0 (Z.to_nat (hi - lo + 1))).

Inductive window_case := AllPages | NearStart | NearEnd | Middle.

Definition window_case_of (totalPages pageNumber : Z) : window_case :=
  if totalPages <=? 7 then AllPages
  else if pageNumber <=? 3 then NearStart
  else if totalPages - pageNumber <=? 4 then NearEnd
  else Middle.

Definition window (totalPages pageNumber : Z) : list (list Z) :=
  match window_case_of totalPages pageNumber with
  | AllPages => [pages_from_to 0 (totalPages - 1)]
  | NearStart => [[0; 1; 2; 3; 4]; [totalPages - 1]]
  | NearEnd => [[0]; pages_from_to (totalPages - 5) (totalPages - 1)]
  | Middle => [[0]; [pageNumber - 1; pageNumber; pageNumber + 1];
               [totalPages - 1]]
  end.

(** The numeric attributes among the sort attributes. *)
Definition attribute_of (n : numeric) : attribute :=
  match n with
  | NReviewCount => ReviewCount
  | NRating => Rating
  | NDifficulty => Difficulty
  | NWorkload => Workload
  end.

(** ** Sample courses *)

Definition unrated (i : string) : Course :=
  mkCourse i i None None None (Some 0%float) false false.

Definition rated (i : string) (r : number) : Course :=
  mkCourse i i (Some r) (Some r) (Some r) (Some 3%float) false false.

Definition sample (k : nat) : Course :=
  let i := String (ascii_of_nat (65 + k)) EmptyString in
  mkCourse i i (Some 4%float) (Some 3%float) (Some 10%float) (Some 5%float)
           false false.

Definition twenty_courses : list Course := map sample (seq 0 20).

(** ** The controller

    One user event, then the page effect on the collection recomputed from
    the new state.  When the effect changes the page number the component
    renders again and the effect runs once more; [pageEffect_idempotent]
    below shows that this second run changes nothing. *)

Inductive event :=
| Blur (a : numeric) (s : side) (parsed : number)
| SetHideDeprecated (v : bool)
| SetOnlyShowFoundational (v : bool)
| ToggleSort (a : attribute)
| PageChange (page : Z)
| NextPage
| PrevPage
| PageSizeChange (size : Z).

Section Controller.

Variable localeCompare : string -> string -> number.
Variable cv : ArraySort.convention.
Variable courses : list Course.

Definition resultCount (st : ViewState) : Z :=
  Z.of_nat (List.length (current localeCompare cv st courses)).

(** The pages that have a button, and the sizes that have one. *)
Definition offered_pages (st : ViewState) : list Z :=
  match paginationChunks (totalPages (resultCount st) (pageSize st))
                         (pageNumber st) with
  | Some chunks => rendered_pages chunks
  | None => []
  end.

Definition handle (e : event) (st : ViewState) : ViewState :=
  match e with
  | Blur a s parsed => onBlur a s parsed st
  | SetHideDeprecated v => setHideDeprecated v st
  | SetOnlyShowFoundational v => setOnlyShowFoundational v st
  | ToggleSort a => toggleSort a st
  | PageChange page =>
      if existsb (Z.eqb page) (offered_pages st) then setPageNumber page st
      else st
  | NextPage => incrementPageNumber (resultCount st) st
  | PrevPage => decrementPageNumber st
  | PageSizeChange size =>
      if existsb (Z.eqb size) pageSizes && negb (size =? pageSize st)
      then setPageSize size st
      else st
  end.

Definition update (st : ViewState) (e : event) : ViewState :=
  let st' := handle e st in
  pageEffect (current localeCompare cv st' courses) st'.

Definition run (events : list event) : ViewState :=
  fold_left update events initialState.

End Controller.

(** ** The rest of [Pagination] and of [Home] *)

(** The two numbers of "Showing a to b of n courses": a is
    [rangeStart + 1], b is [rangeEnd]. *)
Definition rangeStart (pageSize pageNumber : Z) : Z := pageNumber * pageSize.

Definition rangeEnd (pageSize pageNumber resultCount : Z) : Z :=
  Z.min (rangeStart pageSize pageNumber + pageSize) resultCount.

(** The visible page of page number [k]. *)
Definition page_slice {A : Type} (l : list A) (pageSize k : Z) : list A :=
  Array_slice l (k * pageSize) (k * pageSize + pageSize).

(** Consecutive chunks are rendered with "..." between them: the gap hides
    a page when the pages on its two sides are not neighbours. *)
Definition gaps_hide_pages (chunks : list (list Z)) : Prop :=
  forall i c1 c2 a b,
    nth_error chunks i = Some c1 -> nth_error chunks (S i) = Some c2 ->
    In a c1 -> In b c2 -> a + 1 < b.

(** What every reachable view state satisfies. *)
Definition page_state_ok (resultCount : Z) (st : ViewState) : Prop :=
  In (pageSize st) pageSizes
  /\ 0 <= pageNumber st
  /\ pageNumber st * pageSize st <= resultCount.

(** [classNames(...classes)]: [classes.filter(Boolean).join(" ")]; the
    only falsy string is the empty one. *)
Definition Boolean_string (s : string) : bool :=
  match s with
  | EmptyString => false
  | String _ _ => true
  end.

Definition classNames (classes : list string) : string :=
  String.concat " " (filter Boolean_string classes).

(** Joining two results of [classNames]: a space goes between them only
    when both have something to show. *)
Definition join_classes (a b : string) : string :=
  if Boolean_string a
  then if Boolean_string b then (a ++ " " ++ b)%string else a
  else b.

(** ** [getCourse]: splitting a course code

    JavaScript strings are sequences of UTF-16 code units.  The code is
    matched against [/^(?<department>[A-z]+)-(?<number>.+)$/]: without
    flags, [[A-z]] is the code units 65 to 122, [.] is any code unit but a
    line terminator, and [^], [$] are the two ends of the string. *)

Module GetCourse.

Definition code_unit := N.
Definition jsstring := list code_unit.

Definition hyphen : code_unit := 45%N.

Definition in_A_z (c : code_unit) : bool := ((65 <=? c) && (c <=? 122))%N.

Definition line_terminator (c : code_unit) : bool :=
  ((c =? 10) || (c =? 13) || (c =? 8232) || (c =? 8233))%N.

Definition dot (c : code_unit) : bool := negb (line_terminator c).

(** The longest prefix of [[A-z]] code units and what follows it. *)
Fixpoint span_A_z (s : jsstring) : jsstring * jsstring :=
  match s with
  | c :: rest =>
      if in_A_z c then let (d, tl) := span_A_z rest in (c :: d, tl)
      else ([], s)
  | [] => ([], [])
  end.

(** [code.match(...)]: the two named groups, or [None] for [null].  The
    hyphen is outside [[A-z]], so the greedy [[A-z]+] can only stop at the
    end of the longest prefix; no shorter prefix is followed by a hyphen. *)
Definition match_code (code : jsstring) : option (jsstring * jsstring) :=
  match span_A_z code with
  | (c :: d, h :: n :: ns) =>
      if (h =? hyphen)%N && forallb dot (n :: ns) then Some (c :: d, n :: ns)
      else None
  | _ => None
  end.

(** The language of the regular expression with its two groups. *)
Definition regex_match (code department number : jsstring) : Prop :=
  code = department ++ hyphen :: number
  /\ department <> [] /\ forallb in_A_z department = true
  /\ number <> [] /\ forallb dot number = true.

Inductive outcome :=
| DoesNotMatchFormat            (* throw new Error("Code doesn't match format") *)
| CannotParse                   (* throw new Error("Can't parse department or number") *)
| Query (department number : jsstring).  (* the parameters of the fetch *)

(** [!s] on a string. *)
Definition is_empty (s : jsstring) : bool :=
  match s with [] => true | _ => false end.

(** [getCourse] up to the parameters it hands to the client. *)
Definition getCourse_params (code : jsstring) : outcome :=
  match match_code code with
  | None => DoesNotMatchFormat
  | Some (department, number) =>
      if is_empty department || is_empty number then CannotParse
      else Query department number
  end.

(** The CMS computes a course's code as [department + "-" + number]. *)
Definition code_of (department number : jsstring) : jsstring :=
  department ++ hyphen :: number.

Definition of_string (s : string) : jsstring :=
  map N_of_ascii (list_ascii_of_string s).

End GetCourse.

(** * Properties *)

(** ** The range filter and the record predicate *)

Lemma between_passes (value : option number) (min max : number) :
  between value min max = true <-> RangeFilter_passes value min max.
Proof.
  destruct value as [v|]; simpl.
  - unfold JS.ge, JS.le. now rewrite andb_true_iff.
  - tauto.
Qed.

Lemma between_fails (value : option number) (min max : number) :
  between value min max = false -> ~ RangeFilter_passes value min max.
Proof.
  intros Hf Hp. apply between_passes in Hp. congruence.
Qed.

(** The arguments of the four [between] calls are the effective bounds. *)
Lemma keeps_unfold (st : ViewState) (c : Course) :
  keeps st c =
  between (value_of NReviewCount c) (effective NReviewCount Lower st)
          (effective NReviewCount Upper st)
  && between (value_of NRating c) (effective NRating Lower st)
             (effective NRating Upper st)
  && between (value_of NDifficulty c) (effective NDifficulty Lower st)
             (effective NDifficulty Upper st)
  && between (value_of NWorkload c) (effective NWorkload Lower st)
             (effective NWorkload Upper st)
  && (negb (hideDeprecated st) || negb (isDeprecated c))
  && (negb (onlyShowFoundational st) || isFoundational c).
Proof.
  unfold keeps, effective; simpl.
  destruct (hideDeprecated st), (onlyShowFoundational st),
    (isDeprecated c), (isFoundational c); reflexivity.
Qed.

Lemma keeps_true_iff (st : ViewState) (c : Course) :
  keeps st c = true <-> satisfies_all st c.
Proof.
  rewrite keeps_unfold. unfold satisfies_all.
  rewrite !andb_true_iff, !between_passes, !orb_true_iff, !negb_true_iff.
  split.
  - intros [[[[[H1 H2] H3] H4] H5] H6]. repeat split.
    + intros []; assumption.
    + destruct H5; congruence.
    + destruct H6; congruence.
  - intros [Hr [Hd Hf]]. repeat split; try apply Hr.
    + destruct (hideDeprecated st); [right; now apply Hd | now left].
    + destruct (onlyShowFoundational st); [right; now apply Hf | now left].
Qed.

Lemma keeps_false_violates (st : ViewState) (c : Course) :
  keeps st c = false -> violates_one st c.
Proof.
  rewrite keeps_unfold. unfold violates_one.
  rewrite !andb_false_iff, !orb_false_iff, !negb_false_iff.
  intros [[[[[H | H] | H] | H] | [H1 H2]] | [H1 H2]].
  - left. exists NReviewCount. now apply between_fails.
  - left. exists NRating. now apply between_fails.
  - left. exists NDifficulty. now apply between_fails.
  - left. exists NWorkload. now apply between_fails.
  - right. left. now split.
  - right. right. now split.
Qed.

(** C4. An absent value passes the range filter whatever the bounds are;
    in particular a course without a rating passes the rating filter of
    every view state. *)
Theorem between_null_passes :
  (forall min max : number, between None min max = true)
  /\ (forall (st : ViewState) (c : Course),
        rating c = None ->
        between (rating c) (minRating st ||| 1%float)
                (maxRating st ||| 5%float) = true).
Proof.
  split.
  - reflexivity.
  - intros st c H. now rewrite H.
Qed.

(** The bound the code passes to [between]: the domain default when the
    stored bound is unset, NaN or a zero, the stored bound otherwise. *)
Lemma effective_cases (a : numeric) (s : side) (st : ViewState) :
  effective a s st =
  match bound a s st with
  | None => domain_default a s
  | Some v => if PrimFloat.is_nan v || PrimFloat.is_zero v
              then domain_default a s else v
  end.
Proof.
  unfold effective, JS.or_default, JS.truthy.
  destruct (bound a s st) as [v|]; [|reflexivity].
  now destruct (PrimFloat.is_zero v), (PrimFloat.is_nan v).
Qed.

Lemma effective_is_spec_effective (a : numeric) (s : side) (st : ViewState) :
  (forall v, bound a s st = Some v -> PrimFloat.is_zero v = false) ->
  effective a s st = spec_effective a s st.
Proof.
  intros Hz. rewrite effective_cases. unfold spec_effective.
  destruct (bound a s st) as [v|]; [|reflexivity].
  rewrite (Hz v eq_refl). now rewrite orb_false_r.
Qed.



(** ** Bounds typed by the user *)

Lemma bound_onBlur (a : numeric) (s : side) (v : number) (st : ViewState) :
  bound a s (onBlur a s v st) = Some v.
Proof. destruct a, s; reflexivity. Qed.

Lemma bound_onBlur_other (a a' : numeric) (s s' : side) (v : number)
      (st : ViewState) :
  (a, s) <> (a', s') -> bound a' s' (onBlur a s v st) = bound a' s' st.
Proof. destruct a, s, a', s'; intros H; try reflexivity; congruence. Qed.

Lemma flags_onBlur (a : numeric) (s : side) (v : number) (st : ViewState) :
  hideDeprecated (onBlur a s v st) = hideDeprecated st
  /\ onlyShowFoundational (onBlur a s v st) = onlyShowFoundational st.
Proof. destruct a, s; split; reflexivity. Qed.

Lemma falsy_falls_back (v d : number) :
  JS.truthy v = false -> Some v ||| d = d.
Proof. intros H. unfold JS.or_default. now rewrite H. Qed.

(** A bound that holds a falsy number filters like a bound never set. *)
Lemma falsy_bound_like_unset (a : numeric) (s : side) (v : number)
      (st : ViewState) (c : Course) :
  JS.truthy v = false -> bound a s st = None ->
  keeps (onBlur a s v st) c = keeps st c.
Proof.
  intros Hv Hb. rewrite !keeps_unfold.
  destruct (flags_onBlur a s v st) as [-> ->].
  assert (E : forall a' s', effective a' s' (onBlur a s v st)
                            = effective a' s' st).
  { intros a' s'. unfold effective.
    destruct a, s, a', s'; simpl in *;
      try reflexivity; rewrite Hb; now apply falsy_falls_back. }
  now rewrite !E.
Qed.





(** C9. The view starts with a minimum review count of 1, not the domain
    default 0, so a course with no review is absent from the first
    filtered collection. *)
Theorem initial_min_review_count_is_one :
  minReviewCount initialState = Some 1%float
  /\ effective NReviewCount Lower initialState = 1%float
  /\ domain_default NReviewCount Lower = 0%float
  /\ (forall (courses : list Course) (c : Course),
        reviewCount c = Some 0%float ->
        ~ In c (filtered initialState courses)).
Proof.
  repeat split.
  intros courses c Hz Hin. apply filter_In in Hin. destruct Hin as [_ Ha].
  rewrite keeps_unfold in Ha. simpl value_of in Ha. rewrite Hz in Ha.
  discriminate Ha.
Qed.

(** ** The comparator *)

Lemma numeric_field_value_of (n : numeric) (c : Course) :
  numeric_field (attribute_of n) c = value_of n c.
Proof. now destruct n. Qed.

Section ComparatorFacts.

Variable localeCompare : string -> string -> number.

Local Abbreviation cmp := (sortComparator localeCompare).

Lemma comparator_numeric (n : numeric) (d : direction) (a b : Course) :
  cmp (mkSort (attribute_of n) d) a b =
  match value_of n a with
  | None => 1%float
  | Some x =>
      match value_of n b with
      | None => (-1)%float
      | Some y => ((x - y) * ordering d)%float
      end
  end.
Proof.
  unfold sortComparator.
  rewrite <- !numeric_field_value_of. now destruct n.
Qed.

(** C3. For a numeric attribute and either direction, a course without
    the attribute compares after a course that has it: the comparator is
    positive one way round and negative the other.  These two results do
    not depend on the direction; the direction multiplies only the
    difference of two present values. *)
Theorem absent_value_sorts_last :
  forall (n : numeric) (d : direction) (a b : Course) (y : number),
    value_of n a = None ->
    value_of n b = Some y ->
    JS.lt 0%float (cmp (mkSort (attribute_of n) d) a b) = true
    /\ JS.lt (cmp (mkSort (attribute_of n) d) b a) 0%float = true
    /\ cmp (mkSort (attribute_of n) asc) a b
       = cmp (mkSort (attribute_of n) desc) a b
    /\ cmp (mkSort (attribute_of n) asc) b a
       = cmp (mkSort (attribute_of n) desc) b a
    /\ (forall a' x, value_of n a' = Some x ->
          cmp (mkSort (attribute_of n) desc) a' b
          = ((x - y) * (-1))%float
          /\ cmp (mkSort (attribute_of n) asc) a' b
             = ((x - y) * 1)%float).
Proof.
  intros n d a b y Ha Hb.
  rewrite !comparator_numeric, Ha, Hb.
  do 4 (split; [reflexivity|]).
  intros a' x Hx. rewrite !comparator_numeric, Hx, Hb.
  now split.
Qed.

(** Two courses that both lack the attribute compare as "first after
    second" in either order: the comparator is not consistent on them. *)
Lemma both_absent_compare_positive (n : numeric) (d : direction)
      (a b : Course) :
  value_of n a = None -> value_of n b = None ->
  cmp (mkSort (attribute_of n) d) a b = 1%float
  /\ cmp (mkSort (attribute_of n) d) b a = 1%float.
Proof.
  intros Ha Hb. rewrite !comparator_numeric, Ha, Hb. now split.
Qed.

End ComparatorFacts.

Lemma absent_value_sorts_last_witness :
  JS.lt 0%float
        (sortComparator (fun _ _ => 0%float) (mkSort Rating desc)
                        (unrated "A"%string) (rated "B"%string 4%float)) = true
  /\ JS.lt (sortComparator (fun _ _ => 0%float) (mkSort Rating desc)
                           (rated "B"%string 4%float) (unrated "A"%string)) 0%float = true.
Proof.
  pose proof (absent_value_sorts_last (fun _ _ => 0%float) NRating desc
                (unrated "A"%string) (rated "B"%string 4%float) 4%float
                eq_refl eq_refl) as H.
  exact (conj (proj1 H) (proj1 (proj2 H))).
Defined.

(** ** Order of occurrence in a list *)

Section Precedes.

Context {A : Type}.
Implicit Types (x y z : A) (l : list A).

Lemma precedes_nil x y : ~ precedes x y [].
Proof.
  intros (l1 & l2 & l3 & H). now destruct l1.
Qed.

Lemma precedes_cons x y z l :
  precedes x y (z :: l) <-> (z = x /\ In y l) \/ precedes x y l.
Proof.
  split.
  - intros (l1 & l2 & l3 & H). destruct l1 as [|w l1]; simpl in H.
    + injection H as -> ->. left. split; [reflexivity|].
      apply in_or_app. right. now left.
    + injection H as -> ->. right. now exists l1, l2, l3.
  - intros [[-> Hin] | (l1 & l2 & l3 & ->)].
    + apply in_split in Hin. destruct Hin as (l2 & l3 & ->).
      now exists [], l2, l3.
    + now exists (z :: l1), l2, l3.
Qed.

Lemma precedes_app x y l l' :
  precedes x y (l ++ l') <->
  precedes x y l \/ (In x l /\ In y l') \/ precedes x y l'.
Proof.
  induction l as [|z l IH]; simpl.
  - split; [now (right; right)|].
    intros [H | [[[] _] | H]]; [now apply precedes_nil in H | exact H].
  - rewrite !precedes_cons, IH, in_app_iff. split.
    + intros [[-> [H | H]] | [H | [[H1 H2] | H]]]; auto 6.
    + intros [[[-> H] | H] | [[[-> | H1] H2] | H]]; auto 6.
Qed.

Lemma precedes_single x y z : ~ precedes x y [z].
Proof.
  intros H. apply precedes_cons in H. destruct H as [[_ []] | H].
  now apply precedes_nil in H.
Qed.

Lemma precedes_rev x y l : precedes x y (rev l) <-> precedes y x l.
Proof.
  induction l as [|z l IH]; simpl.
  - split; intros H; now apply precedes_nil in H.
  - rewrite precedes_app, IH, <- in_rev, (precedes_cons y x z l). simpl.
    split.
    + intros [H | [[H1 [-> | []]] | H]]; auto.
      now apply precedes_single in H.
    + intros [[-> H] | H]; auto.
Qed.

Lemma precedes_In x y l : precedes x y l -> In x l /\ In y l.
Proof.
  intros (l1 & l2 & l3 & ->). split.
  - apply in_or_app. right. now left.
  - apply in_or_app. right. right. apply in_or_app. right. now left.
Qed.

(** In a list without repetition the order of two elements is unique. *)
Lemma precedes_asym x y l : NoDup l -> precedes x y l -> ~ precedes y x l.
Proof.
  induction 1 as [|z l Hz Hnd IH]; intros Hxy Hyx.
  - now apply precedes_nil in Hxy.
  - apply precedes_cons in Hxy, Hyx.
    destruct Hxy as [[-> Hy] | Hxy], Hyx as [[E Hx] | Hyx].
    + subst. contradiction.
    + apply precedes_In in Hyx. now destruct Hyx.
    + subst. apply precedes_In in Hxy. now destruct Hxy.
    + now apply IH.
Qed.

End Precedes.

(** ** The sort keeps what the comparator does not ask to swap *)

Section SortFacts.

Context {A : Type}.
Variable comparefn : A -> A -> number.
Variable cv : ArraySort.convention.

Local Abbreviation insert := (ArraySort.insert comparefn cv).
Local Abbreviation passes := (ArraySort.passes comparefn cv).
Local Abbreviation sort_from := (ArraySort.sort_from comparefn cv).

(** [insert] puts the element after the neighbours it passes and in front
    of the first one it does not pass. *)
Lemma insert_split (x : A) (prefix : list A) :
  exists p1 p2,
    prefix = p1 ++ p2 /\ insert x prefix = p1 ++ x :: p2
    /\ Forall (fun p => passes x p = true) p1.
Proof.
  induction prefix as [|p ps IH]; simpl.
  - now exists [], [].
  - destruct (passes x p) eqn:E.
    + destruct IH as (p1 & p2 & -> & -> & HF).
      exists (p :: p1), p2. repeat split. now constructor.
    + now exists [], (p :: ps).
Qed.

Lemma insert_perm (x : A) (prefix : list A) :
  Permutation (insert x prefix) (x :: prefix).
Proof.
  destruct (insert_split x prefix) as (p1 & p2 & -> & -> & _).
  symmetry. apply Permutation_middle.
Qed.

Lemma sort_from_perm (l prefix : list A) :
  Permutation (sort_from l prefix) (l ++ prefix).
Proof.
  revert prefix. induction l as [|z l IH]; intros prefix; simpl.
  - reflexivity.
  - unfold ArraySort.sort_from in *. simpl. rewrite IH, insert_perm.
    symmetry. apply Permutation_middle.
Qed.

Lemma sort_perm (l : list A) : Permutation (ArraySort.sort comparefn cv l) l.
Proof.
  unfold ArraySort.sort. rewrite <- Permutation_rev, sort_from_perm.
  now rewrite app_nil_r.
Qed.

Lemma sort_length (l : list A) :
  List.length (ArraySort.sort comparefn cv l) = List.length l.
Proof. apply Permutation_length, sort_perm. Qed.

Lemma insert_keeps (x y z : A) (prefix : list A) :
  precedes y x prefix -> precedes y x (insert z prefix).
Proof.
  destruct (insert_split z prefix) as (p1 & p2 & -> & -> & _).
  rewrite !precedes_app, precedes_cons. simpl. tauto.
Qed.

Lemma insert_behind (x y : A) (prefix : list A) :
  passes y x = false -> In x prefix -> precedes y x (insert y prefix).
Proof.
  intros Hp Hin.
  destruct (insert_split y prefix) as (p1 & p2 & -> & -> & HF).
  apply in_app_or in Hin. destruct Hin as [Hin | Hin].
  - rewrite Forall_forall in HF. apply HF in Hin. congruence.
  - apply precedes_app. right. right. apply precedes_cons. now left.
Qed.

Lemma sort_from_keeps (x y : A) :
  passes y x = false ->
  forall l prefix,
    precedes y x prefix \/ (In x prefix /\ In y l) \/ precedes x y l ->
    precedes y x (sort_from l prefix).
Proof.
  intros Hp. induction l as [|z l IH]; intros prefix H.
  - destruct H as [H | [[_ []] | H]]; [exact H|].
    now apply precedes_nil in H.
  - change (precedes y x (sort_from l (insert z prefix))). apply IH.
    destruct H as [H | [[Hx [-> | Hy]] | H]].
    + left. now apply insert_keeps.
    + left. now apply insert_behind.
    + right. left. split; [|exact Hy].
      apply (Permutation_in _ (Permutation_sym (insert_perm z prefix))).
      now right.
    + apply precedes_cons in H. destruct H as [[-> Hy] | H].
      * right. left. split; [|exact Hy].
        apply (Permutation_in _ (Permutation_sym (insert_perm x prefix))).
        now left.
      * now (right; right).
Qed.

(** Two elements keep their input order unless the comparator, asked
    about the later one against the earlier one, lets it pass. *)
Lemma sort_keeps_order (l : list A) (x y : A) :
  precedes x y l -> passes y x = false ->
  precedes x y (ArraySort.sort comparefn cv l).
Proof.
  intros Hxy Hp. unfold ArraySort.sort. apply precedes_rev.
  apply sort_from_keeps; auto.
Qed.

End SortFacts.

(** The two conventions agree when "x below y" and "y above x" are the
    same answer of the comparator. *)
Lemma conventions_agree {A : Type} (comparefn : A -> A -> number)
      (l : list A) :
  (forall x y,
      JS.lt (ArraySort.SortCompare comparefn x y) 0%float
      = negb (JS.le (ArraySort.SortCompare comparefn y x) 0%float)) ->
  ArraySort.sort comparefn ArraySort.later_first l
  = ArraySort.sort comparefn ArraySort.earlier_first l.
Proof.
  intros Hanti. unfold ArraySort.sort, ArraySort.sort_from. f_equal.
  generalize (@nil A). induction l as [|x l IH]; intros prefix; simpl.
  - reflexivity.
  - rewrite IH. f_equal.
    induction prefix as [|p ps IHp]; simpl; [reflexivity|].
    now rewrite Hanti, IHp.
Qed.

(** Ratings 3, 1, none, 2 sorted in both directions. *)
Example sort_by_rating (cv : ArraySort.convention)
        (lc : string -> string -> number) :
  let c3 := rated "c3" 3%float in
  let c1 := rated "c1" 1%float in
  let c0 := unrated "c0" in
  let c2 := rated "c2" 2%float in
  ArraySort.sort (sortComparator lc (mkSort Rating asc)) cv [c3; c1; c0; c2]
  = [c1; c2; c3; c0]
  /\ ArraySort.sort (sortComparator lc (mkSort Rating desc)) cv
                    [c3; c1; c0; c2]
     = [c3; c2; c1; c0].
Proof.
  destruct cv; split; reflexivity.
Qed.


(** ** Ties of the comparator *)

Lemma SF64sub_diag (x : spec_float) :
  SF64sub x x = S754_nan \/ exists s, SF64sub x x = S754_zero s.
Proof.
  destruct x as [s|s| |s m e]; simpl.
  - destruct s; eauto.
  - destruct s; eauto.
  - eauto.
  - unfold SF64sub, SFsub. cbv zeta.
    set (d := (_ - _)%Z).
    assert (d = 0%Z) as -> by (subst d; apply Z.sub_diag).
    simpl. eauto.
Qed.

Lemma SF64mul_ordering (r : spec_float) (d : direction) :
  r = S754_nan \/ (exists s, r = S754_zero s) ->
  SF64mul r (Prim2SF (ordering d)) = S754_nan
  \/ exists s, SF64mul r (Prim2SF (ordering d)) = S754_zero s.
Proof.
  intros [-> | [s ->]]; destruct d; vm_compute; eauto.
Qed.

(** The difference of a number with itself, times the direction, is a zero
    or NaN: after [SortCompare] it is neither below nor above zero. *)
Lemma self_difference (x : number) (d : direction) :
  let v := ((x - x) * ordering d)%float in
  let w := if PrimFloat.is_nan v then 0%float else v in
  JS.lt w 0%float = false /\ JS.le w 0%float = true.
Proof.
  intros v w.
  assert (Hm : Prim2SF v = S754_nan \/ exists s, Prim2SF v = S754_zero s).
  { unfold v. rewrite mul_spec, sub_spec.
    apply SF64mul_ordering.
    destruct (SF64sub_diag (Prim2SF x)) as [E | E]; auto. }
  unfold w, JS.lt, JS.le, PrimFloat.is_nan.
  rewrite FloatAxioms.eqb_spec.
  destruct Hm as [E | [s E]]; rewrite E; simpl.
  - now vm_compute.
  - rewrite ltb_spec, leb_spec, E. now vm_compute.
Qed.

(** A comparator result that is a zero is a tie for the sort. *)
Lemma zero_is_tie (v : number) :
  PrimFloat.is_zero v = true ->
  let w := if PrimFloat.is_nan v then 0%float else v in
  JS.lt w 0%float = false /\ JS.le w 0%float = true.
Proof.
  intros Hz. cbv zeta.
  unfold PrimFloat.is_zero in Hz. rewrite FloatAxioms.eqb_spec in Hz.
  change (Prim2SF zero) with (S754_zero false) in Hz.
  unfold JS.lt, JS.le, PrimFloat.is_nan. rewrite FloatAxioms.eqb_spec.
  destruct (Prim2SF v) as [s|s| |s m e] eqn:E;
    try (destruct s; discriminate Hz); try discriminate Hz.
  simpl. rewrite ltb_spec, leb_spec, E. now vm_compute.
Qed.

Lemma zero_times_ordering (v : number) (d : direction) :
  PrimFloat.is_zero v = true ->
  PrimFloat.is_zero (v * ordering d) = true.
Proof.
  unfold PrimFloat.is_zero. rewrite !FloatAxioms.eqb_spec, mul_spec.
  change (Prim2SF zero) with (S754_zero false).
  destruct (Prim2SF v) as [s|s| |s m e]; intros Hz;
    try (destruct s; discriminate Hz); try discriminate Hz.
  destruct s, d; now vm_compute.
Qed.

Section Stability.

Variable localeCompare : string -> string -> number.

Local Abbreviation cmp := (sortComparator localeCompare).

(** Two courses with the same present value of the sort attribute keep
    their input order, under either convention of the sort. *)
Lemma equal_present_keys_keep_order (cv : ArraySort.convention)
      (n : numeric) (d : direction) (l : list Course) (a b : Course)
      (k : number) :
  value_of n a = Some k -> value_of n b = Some k ->
  precedes a b l ->
  precedes a b (ArraySort.sort (cmp (mkSort (attribute_of n) d)) cv l).
Proof.
  intros Ha Hb Hab. apply sort_keeps_order; [exact Hab|].
  destruct (self_difference k d) as [Hlt Hle].
  destruct cv; unfold ArraySort.passes, ArraySort.SortCompare;
    rewrite comparator_numeric, Ha, Hb.
  - exact Hlt.
  - apply negb_false_iff. exact Hle.
Qed.

(** Under the "later first" convention two courses that both lack the
    attribute keep their input order as well. *)
Lemma both_absent_keep_order_later_first
      (n : numeric) (d : direction) (l : list Course) (a b : Course) :
  value_of n a = None -> value_of n b = None ->
  precedes a b l ->
  precedes a b (ArraySort.sort (cmp (mkSort (attribute_of n) d))
                               ArraySort.later_first l).
Proof.
  intros Ha Hb Hab. apply sort_keeps_order; [exact Hab|].
  unfold ArraySort.passes, ArraySort.SortCompare.
  rewrite comparator_numeric, Ha, Hb. reflexivity.
Qed.

(** Two courses on which the comparator answers zero in both orders keep
    their input order, whatever the sort attribute. *)
Lemma comparator_tie_keeps_order (cv : ArraySort.convention)
      (s : SortConfig) (l : list Course) (a b : Course) :
  PrimFloat.is_zero (cmp s a b) = true ->
  PrimFloat.is_zero (cmp s b a) = true ->
  precedes a b l ->
  precedes a b (ArraySort.sort (cmp s) cv l).
Proof.
  intros Hab Hba Hp. apply sort_keeps_order; [exact Hp|].
  destruct cv; unfold ArraySort.passes, ArraySort.SortCompare.
  - exact (proj1 (zero_is_tie _ Hba)).
  - apply negb_false_iff. exact (proj2 (zero_is_tie _ Hab)).
Qed.

Lemma equal_names_keep_order (cv : ArraySort.convention) (d : direction)
      (l : list Course) (a b : Course) :
  PrimFloat.is_zero (localeCompare (name a) (name b)) = true ->
  PrimFloat.is_zero (localeCompare (name b) (name a)) = true ->
  precedes a b l ->
  precedes a b (ArraySort.sort (cmp (mkSort Name d)) cv l).
Proof.
  intros Hab Hba. apply comparator_tie_keeps_order;
    unfold sortComparator; simpl; now apply zero_times_ordering.
Qed.

(** *** Absent values end up last *)

Lemma absent_does_not_pass_present (cv : ArraySort.convention)
      (n : numeric) (d : direction) (x p : Course) :
  value_of n x = None -> value_of n p <> None ->
  ArraySort.passes (cmp (mkSort (attribute_of n) d)) cv x p = false.
Proof.
  intros Hx Hp. destruct (value_of n p) as [y|] eqn:E; [|congruence].
  destruct cv; unfold ArraySort.passes, ArraySort.SortCompare;
    rewrite comparator_numeric, ?Hx, ?E; reflexivity.
Qed.

Lemma present_passes_absent (cv : ArraySort.convention)
      (n : numeric) (d : direction) (x p : Course) :
  value_of n x <> None -> value_of n p = None ->
  ArraySort.passes (cmp (mkSort (attribute_of n) d)) cv x p = true.
Proof.
  intros Hx Hp. destruct (value_of n x) as [y|] eqn:E; [|congruence].
  destruct cv; unfold ArraySort.passes, ArraySort.SortCompare;
    rewrite comparator_numeric, ?Hp, ?E; reflexivity.
Qed.

(** The sorted prefix, last element first, is a run of courses without
    the attribute followed by courses with it; [insert] keeps that shape. *)
Lemma insert_keeps_absent_first (cv : ArraySort.convention)
      (n : numeric) (d : direction) (x : Course) (ps : list Course) :
  Forall (fun c => value_of n c <> None) ps ->
  forall ns, Forall (fun c => value_of n c = None) ns ->
  exists ns' ps',
    ArraySort.insert (cmp (mkSort (attribute_of n) d)) cv x (ns ++ ps)
    = ns' ++ ps'
    /\ Forall (fun c => value_of n c = None) ns'
    /\ Forall (fun c => value_of n c <> None) ps'.
Proof.
  intros Hps.
  assert (Hdec : value_of n x = None \/ value_of n x <> None).
  { destruct (value_of n x); [right; discriminate | now left]. }
  induction ns as [|m ns IH]; intros Hns; simpl.
  - destruct Hdec as [Hx | Hx].
    + exists [x], ps. repeat split; auto.
      destruct ps as [|p ps']; [reflexivity|]. simpl.
      rewrite absent_does_not_pass_present; auto.
      now inversion Hps.
    + exists [], (ArraySort.insert (cmp (mkSort (attribute_of n) d)) cv x ps).
      repeat split; auto.
      apply (Permutation_Forall (Permutation_sym (insert_perm _ cv x ps))).
      now constructor.
  - inversion Hns as [|? ? Hm Hns']; subst.
    destruct (ArraySort.passes _ cv x m) eqn:E.
    + destruct (IH Hns') as (ns' & ps' & Heq & H1 & H2).
      exists (m :: ns'), ps'. simpl. rewrite Heq. repeat split; auto.
    + destruct Hdec as [Hx | Hx].
      * exists (x :: m :: ns), ps. repeat split; auto.
      * rewrite present_passes_absent in E; auto. discriminate.
Qed.

(** Sorting by a numeric attribute, in either direction and under either
    convention, puts every course that has the attribute before every
    course that lacks it. *)
Lemma sorted_absent_last (cv : ArraySort.convention) (n : numeric)
      (d : direction) (l : list Course) :
  exists present absent,
    ArraySort.sort (cmp (mkSort (attribute_of n) d)) cv l
    = present ++ absent
    /\ Forall (fun c => value_of n c <> None) present
    /\ Forall (fun c => value_of n c = None) absent.
Proof.
  unfold ArraySort.sort.
  assert (H : forall l ns ps,
             Forall (fun c => value_of n c = None) ns ->
             Forall (fun c => value_of n c <> None) ps ->
             exists ns' ps',
               ArraySort.sort_from (cmp (mkSort (attribute_of n) d)) cv l
                                   (ns ++ ps) = ns' ++ ps'
               /\ Forall (fun c => value_of n c = None) ns'
               /\ Forall (fun c => value_of n c <> None) ps').
  { clear l. induction l as [|x l IH]; intros ns ps Hns Hps.
    - now exists ns, ps.
    - destruct (insert_keeps_absent_first cv n d x ps Hps ns Hns)
        as (ns1 & ps1 & Heq & H1 & H2).
      unfold ArraySort.sort_from in *. simpl. rewrite Heq. now apply IH. }
  destruct (H l [] [] (Forall_nil _) (Forall_nil _))
    as (ns & ps & Heq & Hns & Hps).
  simpl in Heq. rewrite Heq, rev_app_distr.
  exists (rev ps), (rev ns). repeat split; now apply Forall_rev.
Qed.

(** C6. Evaluation at two courses without a rating, sorted by rating: the
    comparator answers 1 for the pair in either order, and the sorted
    output depends on which of the two the sort asks.  Under the "earlier
    first" convention the two courses come out swapped, also in the view
    reached by typing 0 as minimum review count and clicking the Rating
    header. *)
Theorem both_absent_order_depends_on_convention :
  forall d : direction,
    let A := unrated "A"%string in
    let B := unrated "B"%string in
    let view cv :=
      run localeCompare cv [A; B]
          [Blur NReviewCount Lower 0%float; ToggleSort Rating] in
    cmp (mkSort Rating d) A B = 1%float
    /\ cmp (mkSort Rating d) B A = 1%float
    /\ ArraySort.sort (cmp (mkSort Rating d)) ArraySort.later_first [A; B]
       = [A; B]
    /\ ArraySort.sort (cmp (mkSort Rating d)) ArraySort.earlier_first [A; B]
       = [B; A]
    /\ current localeCompare ArraySort.later_first
               (view ArraySort.later_first) [A; B] = [A; B]
    /\ current localeCompare ArraySort.earlier_first
               (view ArraySort.earlier_first) [A; B] = [B; A].
Proof.
  intros d. repeat split.
Qed.

End Stability.

(** ** The page effect *)

Section PageEffect.

Variable cur : list Course.
Variable st : ViewState.

Local Abbreviation len := (Z.of_nat (List.length cur)).

Lemma pageEffect_pageSize : pageSize (pageEffect cur st) = pageSize st.
Proof.
  unfold pageEffect. now destruct (_ >=? _).
Qed.

(** When the page starts at or beyond the end, the page number becomes
    the floor of length over page size; otherwise nothing changes. *)
Lemma pageEffect_fires :
  len <= pageSize st * pageNumber st ->
  pageNumber (pageEffect cur st) = len / pageSize st.
Proof.
  intros H. unfold pageEffect.
  destruct (Z.geb_spec (pageSize st * pageNumber st) len); [reflexivity|lia].
Qed.

Lemma pageEffect_idle :
  pageSize st * pageNumber st < len -> pageEffect cur st = st.
Proof.
  intros H. unfold pageEffect.
  destruct (Z.geb_spec (pageSize st * pageNumber st) len); [lia|reflexivity].
Qed.

(** The page never starts beyond the end after the effect. *)
Lemma pageEffect_upper :
  0 < pageSize st ->
  pageNumber (pageEffect cur st) * pageSize st <= len.
Proof.
  intros Hs.
  destruct (Z_lt_le_dec (pageSize st * pageNumber st) len) as [H | H].
  - rewrite pageEffect_idle by exact H. lia.
  - rewrite pageEffect_fires by exact H.
    pose proof (Z.mul_div_le len (pageSize st) Hs). lia.
Qed.

(** The invariant holds after the effect exactly when the effect did not
    have to fire on a non-empty collection whose length is a multiple of
    the page size. *)
Lemma pageEffect_in_range_iff :
  0 < pageSize st ->
  page_in_range cur (pageEffect cur st) <->
  pageSize st * pageNumber st < len \/ len = 0 \/ len mod pageSize st <> 0.
Proof.
  intros Hs. unfold page_in_range. rewrite pageEffect_pageSize.
  pose proof (Z.div_mod len (pageSize st) ltac:(lia)) as Hdm.
  pose proof (Z.mod_pos_bound len (pageSize st) Hs) as Hmod.
  destruct (Z_lt_le_dec (pageSize st * pageNumber st) len) as [H | H].
  - rewrite pageEffect_idle by exact H. lia.
  - rewrite pageEffect_fires by exact H. split.
    + intros Hr. right.
      destruct (Z.eq_dec len 0) as [|Hne]; [now left|right]. lia.
    + intros [Hc | [H0 | Hm]]; [lia | | lia].
      rewrite H0. simpl. lia.
Qed.

Lemma pageEffect_idempotent :
  pageEffect cur (pageEffect cur st) = pageEffect cur st.
Proof.
  destruct (Z_lt_le_dec (pageSize st * pageNumber st) len) as [H | H].
  - now rewrite !pageEffect_idle.
  - unfold pageEffect at 1. destruct (_ >=? _); [|reflexivity].
    rewrite pageEffect_pageSize, <- (pageEffect_fires H).
    now destruct (pageEffect cur st).
Qed.

End PageEffect.

(** The example of the specification: page 2 of 23 courses at 10 per
    page, then 15 courses remain. *)
Lemma pageEffect_example (cur : list Course) (st : ViewState) :
  List.length cur = 15%nat -> pageSize st = 10 -> pageNumber st = 2 ->
  pageNumber (pageEffect cur st) = 1.
Proof.
  intros Hl Hs Hn. rewrite pageEffect_fires; rewrite Hl, Hs; [reflexivity|].
  rewrite Hn. simpl. lia.
Qed.

(** C1. Evaluation on twenty courses, all kept by the initial filter,
    at ten per page.  The Next button is enabled on pages 0 and 1; after
    two clicks the page number is 2, the effect computes
    floor(20 / 10) = 2 and leaves it there, the visible page is empty and
    the invariant pageNumber * pageSize < max(length, 1) is false. *)
Theorem page_effect_misses_exact_multiple :
  forall (localeCompare : string -> string -> number)
         (cv : ArraySort.convention),
    let st := run localeCompare cv twenty_courses [NextPage; NextPage] in
    let cur := current localeCompare cv st twenty_courses in
    List.length cur = 20%nat
    /\ pageSize st = 10
    /\ pageNumber st = 2
    /\ pageEffect cur st = st
    /\ slice st cur = []
    /\ ~ page_in_range cur st.
Proof.
  intros lc cv. destruct cv; vm_compute; repeat split; discriminate.
Qed.

(** ** The page window *)

Lemma indices_pages (n : Z) :
  0 <= n -> indices n = Some (pages_from_to 0 (n - 1)).
Proof.
  intros H. unfold indices, pages_from_to.
  destruct (Z.ltb_spec n 0); [lia|].
  replace (n - 1 - 0 + 1) with n by lia. reflexivity.
Qed.

Lemma last_five_pages (n : Z) :
  map (fun v => n - v) [5; 4; 3; 2; 1] = pages_from_to (n - 5) (n - 1).
Proof.
  unfold pages_from_to. replace (n - 1 - (n - 5) + 1) with 5 by lia.
  simpl. repeat (f_equal; try lia).
Qed.

(** [pages_from_to lo hi] lists lo, lo+1, ..., hi. *)
Lemma pages_from_to_nth (lo hi : Z) (k : nat) :
  (Z.of_nat k <= hi - lo) ->
  nth_error (pages_from_to lo hi) k = Some (lo + Z.of_nat k).
Proof.
  intros H. unfold pages_from_to.
  rewrite nth_error_map, nth_error_seq.
  destruct (Nat.ltb_spec k (Z.to_nat (hi - lo + 1))); [reflexivity|lia].
Qed.

Lemma pages_from_to_length (lo hi : Z) :
  List.length (pages_from_to lo hi) = Z.to_nat (hi - lo + 1).
Proof.
  unfold pages_from_to. now rewrite length_map, length_seq.
Qed.

(** C2. For a positive number of pages and a page number within it, the
    chunks are those of the four-case policy: all pages when there are at
    most seven; otherwise [0..4] and the last page near the start, the
    first page and the last five near the end, and the first page, the
    three pages around the current one and the last page in between. *)
Theorem paginationChunks_is_window :
  forall totalPages pageNumber : Z,
    1 <= totalPages ->
    0 <= pageNumber < totalPages ->
    paginationChunks totalPages pageNumber
    = Some (window totalPages pageNumber)
    /\ (totalPages <= 7 ->
        window totalPages pageNumber = [pages_from_to 0 (totalPages - 1)])
    /\ (7 < totalPages -> pageNumber <= 3 ->
        window totalPages pageNumber
        = [[0; 1; 2; 3; 4]; [totalPages - 1]])
    /\ (7 < totalPages -> 3 < pageNumber -> totalPages - pageNumber <= 4 ->
        window totalPages pageNumber
        = [[0]; [totalPages - 5; totalPages - 4; totalPages - 3;
                 totalPages - 2; totalPages - 1]])
    /\ (7 < totalPages -> 3 < pageNumber -> 4 < totalPages - pageNumber ->
        window totalPages pageNumber
        = [[0]; [pageNumber - 1; pageNumber; pageNumber + 1];
           [totalPages - 1]]).
Proof.
  intros tp pn Htp Hpn.
  unfold paginationChunks, window, window_case_of.
  destruct (Z.leb_spec tp 7) as [H7 | H7].
  - rewrite indices_pages by lia. simpl.
    repeat split; intros; try reflexivity; lia.
  - destruct (Z.leb_spec pn 3) as [H3 | H3].
    + repeat split; intros; try reflexivity; lia.
    + destruct (Z.leb_spec (tp - pn) 4) as [H4 | H4].
      * rewrite last_five_pages.
        repeat split; intros; try reflexivity; try lia.
        rewrite <- last_five_pages. reflexivity.
      * repeat split; intros; try reflexivity; lia.
Qed.

Lemma paginationChunks_is_window_witness :
  paginationChunks 10 5 = Some [[0]; [4; 5; 6]; [9]].
Proof.
  exact (proj1 (paginationChunks_is_window 10 5 ltac:(lia) ltac:(lia))).
Defined.

(** No results make zero pages, whatever the positive page size. *)
Lemma totalPages_zero (pageSize : Z) : totalPages 0 pageSize = 0.
Proof. reflexivity. Qed.

(** C8, as the code has it.  With zero pages the chunks are one chunk
    without a page: no page label and no gap is rendered, but the list of
    chunks is not empty. *)
Theorem paginationChunks_zero_pages :
  forall pageNumber : Z,
    paginationChunks 0 pageNumber = Some [[]]
    /\ rendered_pages [[]] = []
    /\ rendered_gaps [[]] = 0%nat.
Proof.
  intros pn. repeat split.
Qed.

(** C8, as stated, fails: the list of chunks for zero pages has one
    element. *)
Lemma paginationChunks_zero_pages_not_empty :
  exists chunks,
    paginationChunks (totalPages 0 10) 0 = Some chunks
    /\ List.length chunks = 1%nat
    /\ chunks <> [].
Proof.
  exists [[]]. repeat split. discriminate.
Qed.

(** * Further properties of the page controls *)

(** ** The page buttons *)

Lemma pages_from_to_In (lo hi p : Z) :
  In p (pages_from_to lo hi) <-> lo <= p <= hi.
Proof.
  unfold pages_from_to. rewrite in_map_iff. split.
  - intros (k & <- & Hk). apply in_seq in Hk. lia.
  - intros H. exists (Z.to_nat (p - lo)). split; [lia|].
    apply in_seq. lia.
Qed.

Lemma pages_from_to_sorted (lo hi : Z) :
  StronglySorted Z.lt (pages_from_to lo hi).
Proof.
  unfold pages_from_to. generalize (Z.to_nat (hi - lo + 1)) as n.
  generalize 0%nat as start.
  intros start n. revert start.
  induction n as [|n IH]; intros start; simpl; constructor.
  - apply IH.
  - apply Forall_forall. intros x Hx. apply in_map_iff in Hx.
    destruct Hx as (k & <- & Hk). apply in_seq in Hk. lia.
Qed.

(** The four shapes of the chunks, for any page number. *)
Lemma paginationChunks_shape (tp pn : Z) :
  0 <= tp ->
  exists chunks,
    paginationChunks tp pn = Some chunks
    /\ ((tp <= 7 /\ chunks = [pages_from_to 0 (tp - 1)])
        \/ (7 < tp /\ pn <= 3 /\ chunks = [[0; 1; 2; 3; 4]; [tp - 1]])
        \/ (7 < tp /\ 3 < pn /\ tp - pn <= 4
            /\ chunks = [[0]; [tp - 5; tp - 4; tp - 3; tp - 2; tp - 1]])
        \/ (7 < tp /\ 3 < pn /\ 4 < tp - pn
            /\ chunks = [[0]; [pn - 1; pn; pn + 1]; [tp - 1]])).
Proof.
  intros Htp. unfold paginationChunks.
  destruct (Z.leb_spec tp 7).
  - rewrite indices_pages by lia. simpl. eauto.
  - destruct (Z.leb_spec pn 3).
    + eauto 7.
    + destruct (Z.leb_spec (tp - pn) 4); eauto 10.
Qed.

Ltac chunk_cases H :=
  destruct H as [(? & ->) | [(? & ? & ->) | [(? & ? & ? & ->)
                                            | (? & ? & ? & ->)]]].

Ltac solve_gaps :=
  let i := fresh "i" in
  let Hc1 := fresh "Hc" in
  let Hc2 := fresh "Hc" in
  intros i ? ? ? ? Hc1 Hc2 ? ?;
  do 3 (try destruct i as [|i]); simpl in *; try discriminate;
  try (destruct i; discriminate);
  injection Hc1 as <-; injection Hc2 as <-; simpl in *; intuition lia.

Ltac find_page := simpl; repeat (first [left; lia | right]).

Lemma chunk_pages_valid (tp pn : Z) (chunks : list (list Z)) (p : Z) :
  0 <= tp -> paginationChunks tp pn = Some chunks ->
  In p (rendered_pages chunks) -> 0 <= p < tp.
Proof.
  intros Htp Hc Hin.
  destruct (paginationChunks_shape tp pn Htp) as (chunks' & E & Hs).
  rewrite E in Hc. injection Hc as <-.
  chunk_cases Hs; unfold rendered_pages in Hin; simpl in Hin.
  - rewrite app_nil_r in Hin. apply pages_from_to_In in Hin. lia.
  - intuition lia.
  - intuition lia.
  - intuition lia.
Qed.

(** X1. Whatever the current page number, every page that gets a button
    is a page of the collection: 0 <= page < totalPages. *)
Theorem offered_pages_exist :
  forall totalPages pageNumber : Z,
    0 <= totalPages ->
    exists chunks,
      paginationChunks totalPages pageNumber = Some chunks
      /\ forall p, In p (rendered_pages chunks) -> 0 <= p < totalPages.
Proof.
  intros tp pn Htp.
  destruct (paginationChunks_shape tp pn Htp) as (chunks & E & _).
  exists chunks. split; [exact E|].
  intros p. now apply (chunk_pages_valid tp pn).
Qed.

Lemma offered_pages_exist_witness :
  exists chunks,
    paginationChunks 9 12 = Some chunks
    /\ forall p, In p (rendered_pages chunks) -> 0 <= p < 9.
Proof.
  exact (offered_pages_exist 9 12 ltac:(lia)).
Defined.

(** X2. When the current page is a page of the collection, the first
    page, the last page and the current page all have a button. *)
Theorem first_last_current_offered :
  forall totalPages pageNumber : Z,
    0 <= pageNumber < totalPages ->
    exists chunks,
      paginationChunks totalPages pageNumber = Some chunks
      /\ In 0 (rendered_pages chunks)
      /\ In (totalPages - 1) (rendered_pages chunks)
      /\ In pageNumber (rendered_pages chunks).
Proof.
  intros tp pn Hpn.
  destruct (paginationChunks_shape tp pn ltac:(lia)) as (chunks & E & Hs).
  exists chunks. split; [exact E|].
  chunk_cases Hs; unfold rendered_pages; simpl.
  - rewrite app_nil_r, !pages_from_to_In. lia.
  - assert (pn = 0 \/ pn = 1 \/ pn = 2 \/ pn = 3)
      as [-> | [-> | [-> | ->]]] by lia; repeat apply conj; find_page.
  - assert (pn = tp - 4 \/ pn = tp - 3 \/ pn = tp - 2 \/ pn = tp - 1)
      as [-> | [-> | [-> | ->]]] by lia; repeat apply conj; find_page.
  - repeat apply conj; find_page.
Qed.

Lemma first_last_current_offered_witness :
  exists chunks,
    paginationChunks 12 6 = Some chunks
    /\ In 0 (rendered_pages chunks)
    /\ In 11 (rendered_pages chunks)
    /\ In 6 (rendered_pages chunks).
Proof.
  exact (first_last_current_offered 12 6 ltac:(lia)).
Defined.

(** X3. The page buttons appear in strictly increasing order, so no page
    has two buttons, and every "..." stands for at least one hidden page:
    the pages on its two sides are never neighbours. *)
Theorem page_buttons_increase :
  forall totalPages pageNumber : Z,
    0 <= totalPages ->
    exists chunks,
      paginationChunks totalPages pageNumber = Some chunks
      /\ StronglySorted Z.lt (rendered_pages chunks)
      /\ gaps_hide_pages chunks.
Proof.
  intros tp pn Htp.
  destruct (paginationChunks_shape tp pn Htp) as (chunks & E & Hs).
  exists chunks. split; [exact E|].
  chunk_cases Hs; unfold rendered_pages; simpl; split;
    try solve_gaps;
    try (repeat (constructor; [|repeat (constructor; try lia)]);
         constructor).
  rewrite app_nil_r. apply pages_from_to_sorted.
Qed.

Lemma page_buttons_increase_witness :
  exists chunks,
    paginationChunks 9 4 = Some chunks
    /\ StronglySorted Z.lt (rendered_pages chunks)
    /\ gaps_hide_pages chunks.
Proof.
  exact (page_buttons_increase 9 4 ltac:(lia)).
Defined.

(** X4. There are never more than seven page buttons nor more than two
    "...", however many pages there are. *)
Theorem at_most_seven_buttons :
  forall totalPages pageNumber : Z,
    0 <= totalPages ->
    exists chunks,
      paginationChunks totalPages pageNumber = Some chunks
      /\ (List.length (rendered_pages chunks) <= 7)%nat
      /\ (rendered_gaps chunks <= 2)%nat.
Proof.
  intros tp pn Htp.
  destruct (paginationChunks_shape tp pn Htp) as (chunks & E & Hs).
  exists chunks. split; [exact E|].
  chunk_cases Hs; unfold rendered_pages, rendered_gaps; simpl;
    try (split; lia).
  rewrite app_nil_r, pages_from_to_length. split; lia.
Qed.

Lemma at_most_seven_buttons_witness :
  exists chunks,
    paginationChunks 1000 500 = Some chunks
    /\ (List.length (rendered_pages chunks) <= 7)%nat
    /\ (rendered_gaps chunks <= 2)%nat.
Proof.
  exact (at_most_seven_buttons 1000 500 ltac:(lia)).
Defined.

(** ** The Next and Previous buttons *)

(** X5. Next is enabled whenever a further, non-empty page exists.  It is
    also enabled on the last page, with nothing to go to, exactly when
    that page is full or one course short of full. *)
Theorem next_button_enabled :
  forall pageSize pageNumber resultCount : Z,
    ((pageNumber + 1) * pageSize < resultCount ->
     hasNextPage pageSize pageNumber resultCount = true)
    /\ (resultCount <= (pageNumber + 1) * pageSize ->
        (hasNextPage pageSize pageNumber resultCount = true
         <-> resultCount = (pageNumber + 1) * pageSize
             \/ resultCount = (pageNumber + 1) * pageSize - 1)).
Proof.
  intros ps pn rc. unfold hasNextPage.
  destruct (Z.leb_spec (pn * ps + ps - 1) rc); split; intros; try split;
    intros; try discriminate; try reflexivity; lia.
Qed.

(** ** The number of pages *)

Lemma totalPages_ceil (resultCount pageSize : Z) :
  0 < pageSize ->
  resultCount <= totalPages resultCount pageSize * pageSize
  /\ totalPages resultCount pageSize * pageSize < resultCount + pageSize.
Proof.
  intros Hs. unfold totalPages.
  pose proof (Z.div_mod (- resultCount) pageSize ltac:(lia)) as Hdm.
  pose proof (Z.mod_pos_bound (- resultCount) pageSize Hs) as Hm.
  nia.
Qed.

Lemma totalPages_nonneg (resultCount pageSize : Z) :
  0 <= resultCount -> 0 < pageSize -> 0 <= totalPages resultCount pageSize.
Proof.
  intros Hr Hs. destruct (totalPages_ceil resultCount pageSize Hs). nia.
Qed.

Lemma pageSizes_positive (size : Z) : In size pageSizes -> 0 < size.
Proof. unfold pageSizes. simpl. intuition lia. Qed.

(** ** What every reachable state satisfies *)

Section ControllerFacts.

Variable localeCompare : string -> string -> number.
Variable cv : ArraySort.convention.
Variable courses : list Course.

Local Abbreviation count := (resultCount localeCompare cv courses).
Local Abbreviation cur := (fun st => current localeCompare cv st courses).

Lemma pages_onBlur (a : numeric) (s : side) (v : number) (st : ViewState) :
  pageSize (onBlur a s v st) = pageSize st
  /\ pageNumber (onBlur a s v st) = pageNumber st.
Proof. destruct a, s; split; reflexivity. Qed.

Lemma pages_toggleSort (a : attribute) (st : ViewState) :
  pageSize (toggleSort a st) = pageSize st
  /\ pageNumber (toggleSort a st) = pageNumber st.
Proof.
  unfold toggleSort.
  destruct (sort_attribute (sort st)), a; split; reflexivity.
Qed.

Lemma offered_pages_valid (st : ViewState) (p : Z) :
  0 < pageSize st -> In p (offered_pages localeCompare cv courses st) ->
  0 <= p.
Proof.
  intros Hs. unfold offered_pages.
  destruct (paginationChunks _ _) as [chunks|] eqn:E; [|intros []].
  intros Hin.
  apply (chunk_pages_valid _ _ _ _
           (totalPages_nonneg _ _ (Nat2Z.is_nonneg _) Hs) E Hin).
Qed.

Lemma handle_keeps_pages (e : event) (st : ViewState) :
  In (pageSize st) pageSizes -> 0 <= pageNumber st ->
  In (pageSize (handle localeCompare cv courses e st)) pageSizes
  /\ 0 <= pageNumber (handle localeCompare cv courses e st).
Proof.
  intros Hs Hn. destruct e as [a s v | v | v | a | page | | | size]; simpl.
  - destruct (pages_onBlur a s v st) as [-> ->]. now split.
  - now split.
  - now split.
  - destruct (pages_toggleSort a st) as [-> ->]. now split.
  - destruct (existsb _ _) eqn:E; [|now split]. simpl. split; [exact Hs|].
    apply existsb_exists in E. destruct E as (p & Hin & Heq).
    apply Z.eqb_eq in Heq. subst p.
    apply (offered_pages_valid st page (pageSizes_positive _ Hs) Hin).
  - unfold incrementPageNumber. destruct (hasNextPage _ _ _); simpl;
      split; auto; lia.
  - unfold decrementPageNumber, hasPrevPage.
    destruct (Z.eqb_spec (pageNumber st) 0); simpl; split; auto; lia.
  - match goal with
    | |- context [if ?b then _ else _] => destruct b eqn:E
    end; [|now split].
    simpl. split; [|exact Hn].
    apply andb_true_iff in E. destruct E as [E _].
    rewrite !orb_true_iff, !Z.eqb_eq in E. unfold pageSizes. simpl.
    intuition (auto; discriminate).
Qed.

(** The page effect touches the page number only, so the collection it
    was computed from is still the current one afterwards. *)
Lemma current_after_pageEffect (l : list Course) (st : ViewState) :
  cur (pageEffect l st) = cur st.
Proof.
  unfold pageEffect. now destruct (_ >=? _).
Qed.

Lemma update_ok (st : ViewState) (e : event) :
  In (pageSize st) pageSizes -> 0 <= pageNumber st ->
  page_state_ok (count (update localeCompare cv courses st e))
                (update localeCompare cv courses st e).
Proof.
  intros Hs Hn. unfold update, resultCount. cbv zeta.
  destruct (handle_keeps_pages e st Hs Hn) as [Hs' Hn'].
  set (st' := handle localeCompare cv courses e st) in *.
  rewrite current_after_pageEffect.
  pose proof (pageSizes_positive _ Hs') as Hpos.
  unfold page_state_ok. rewrite pageEffect_pageSize.
  split; [exact Hs'|]. split.
  - unfold pageEffect. destruct (_ >=? _); [|exact Hn'].
    simpl. apply Z.div_pos; lia.
  - now apply pageEffect_upper.
Qed.

Lemma run_from_ok (events : list event) (st : ViewState) :
  page_state_ok (count st) st ->
  page_state_ok
    (count (fold_left (update localeCompare cv courses) events st))
    (fold_left (update localeCompare cv courses) events st).
Proof.
  revert st. induction events as [|e events IH]; intros st Hok; simpl.
  - exact Hok.
  - apply IH. destruct Hok as (Hs & Hn & _). now apply update_ok.
Qed.

End ControllerFacts.

(** X6. Whatever the courses and whatever the user does (typing bounds,
    toggles, sort headers, page buttons, Next, Previous, page sizes), the
    page size is one of 10, 25, 50, the page number is not negative, and
    the visible page does not start beyond the end of the collection. *)
Theorem every_reachable_state_ok :
  forall (localeCompare : string -> string -> number)
         (cv : ArraySort.convention) (courses : list Course)
         (events : list event),
    let st := run localeCompare cv courses events in
    page_state_ok (resultCount localeCompare cv courses st) st.
Proof.
  intros lc cv courses events. apply run_from_ok.
  unfold page_state_ok, resultCount. simpl. repeat split; auto; lia.
Qed.

(** ** Pages of the collection *)

Section Slices.

Context {A : Type}.
Implicit Type l : list A.

Lemma firstn_min_length (n : nat) l :
  firstn (Nat.min n (List.length l)) l = firstn n l.
Proof.
  destruct (Nat.le_ge_cases n (List.length l)) as [H | H].
  - now rewrite Nat.min_l.
  - rewrite Nat.min_r by exact H. now rewrite !firstn_all2.
Qed.

(** On a page that exists or not, the slice is "skip k pages, take one". *)
Lemma page_slice_take (l : list A) (pageSize k : Z) :
  0 <= k -> 0 <= pageSize ->
  page_slice l pageSize k
  = firstn (Z.to_nat pageSize) (skipn (Z.to_nat (k * pageSize)) l).
Proof.
  intros Hk Hs. unfold page_slice, Array_slice. cbv zeta.
  set (len := Z.of_nat (List.length l)).
  assert (Hstart : 0 <= k * pageSize) by nia.
  destruct (Z.ltb_spec (k * pageSize) 0); [lia|].
  destruct (Z.ltb_spec (k * pageSize + pageSize) 0); [lia|].
  destruct (Z_le_gt_dec (k * pageSize) len) as [Hin | Hout].
  - rewrite (Z.min_l (k * pageSize) len) by exact Hin.
    rewrite <- (firstn_min_length (Z.to_nat pageSize)).
    f_equal. rewrite length_skipn. subst len. lia.
  - rewrite (Z.min_r (k * pageSize) len) by lia.
    rewrite !skipn_all2 by (subst len; lia). now rewrite !firstn_nil.
Qed.

Lemma pages_concat (p n : nat) :
  forall l, (List.length l <= n * p)%nat ->
            List.concat (map (fun k => firstn p (skipn (k * p) l)) (seq 0 n))
            = l.
Proof.
  induction n as [|n IH]; intros l Hl.
  - simpl in *. destruct l; [reflexivity | simpl in Hl; lia].
  - simpl. rewrite <- seq_shift, map_map.
    transitivity (firstn p l ++ skipn p l); [|apply firstn_skipn].
    f_equal.
    etransitivity;
      [|apply (IH (skipn p l)); rewrite length_skipn; simpl in Hl; lia].
    f_equal. apply map_ext. intros k.
    rewrite skipn_skipn. f_equal. f_equal. simpl. lia.
Qed.

End Slices.

(** X7. The pages 0 to totalPages - 1 cut the collection into consecutive
    pieces: put one after the other they give the collection back, so
    every course is on exactly one page. *)
Theorem pages_partition_collection :
  forall (cur : list Course) (pageSize : Z),
    0 < pageSize ->
    let n := totalPages (Z.of_nat (List.length cur)) pageSize in
    List.concat (map (page_slice cur pageSize) (pages_from_to 0 (n - 1)))
    = cur.
Proof.
  intros cur ps Hs n.
  destruct (totalPages_ceil (Z.of_nat (List.length cur)) ps Hs) as [Hc _].
  pose proof (totalPages_nonneg (Z.of_nat (List.length cur)) ps
                ltac:(lia) Hs) as Hn.
  fold n in Hc, Hn. unfold pages_from_to.
  replace (n - 1 - 0 + 1) with n by lia. rewrite map_map.
  etransitivity; [|apply (pages_concat (Z.to_nat ps) (Z.to_nat n) cur)].
  - f_equal. apply map_ext. intros k.
    rewrite page_slice_take by lia. f_equal. f_equal.
    rewrite Z.add_0_l, Z2Nat.inj_mul, Nat2Z.id by lia. reflexivity.
  - apply Nat2Z.inj_le. rewrite Nat2Z.inj_mul, !Z2Nat.id by lia. exact Hc.
Qed.

Lemma pages_partition_collection_witness :
  List.concat (map (page_slice twenty_courses 25)
                   (pages_from_to 0 (totalPages 20 25 - 1)))
  = twenty_courses.
Proof.
  exact (pages_partition_collection twenty_courses 25 ltac:(lia)).
Defined.

Lemma Array_slice_incl {A : Type} (l : list A) (start stop : Z) :
  incl (Array_slice l start stop) l.
Proof.
  unfold Array_slice. cbv zeta. intros x Hx.
  match type of Hx with
  | In _ (firstn ?n (skipn ?k _)) =>
      rewrite <- (firstn_skipn k l); apply in_or_app; right;
      rewrite <- (firstn_skipn n (skipn k l)); apply in_or_app; now left
  end.
Qed.

(** X8. Every row of the visible page is a course of the input that
    satisfies all the constraints of the current state: filtering, sorting
    and slicing never show a course that the filter turns away. *)
Theorem visible_rows_satisfy_filter :
  forall (localeCompare : string -> string -> number)
         (cv : ArraySort.convention) (st : ViewState)
         (courses : list Course),
    Forall (fun c => In c courses /\ satisfies_all st c)
           (slice st (current localeCompare cv st courses)).
Proof.
  intros lc cv st courses. apply Forall_forall. intros c Hc.
  apply Array_slice_incl in Hc.
  apply (Permutation_in _ (sort_perm _ cv _)) in Hc.
  apply filter_In in Hc. destruct Hc as [Hin Hk].
  split; [exact Hin | now apply keeps_true_iff].
Qed.

(** X9. When the page starts within the collection, the number of rows
    shown is the difference of the two numbers of "Showing a to b": b minus
    a plus one, that is [rangeEnd - rangeStart]; it is at most the page
    size. *)
Theorem rows_match_showing_text :
  forall (cur : list Course) (st : ViewState),
    0 <= pageSize st -> 0 <= pageNumber st ->
    pageNumber st * pageSize st <= Z.of_nat (List.length cur) ->
    Z.of_nat (List.length (slice st cur))
    = rangeEnd (pageSize st) (pageNumber st) (Z.of_nat (List.length cur))
      - rangeStart (pageSize st) (pageNumber st)
    /\ Z.of_nat (List.length (slice st cur)) <= pageSize st.
Proof.
  intros cur st Hs Hn Hin.
  change (slice st cur) with (page_slice cur (pageSize st) (pageNumber st)).
  rewrite page_slice_take by assumption.
  rewrite length_firstn, length_skipn. unfold rangeEnd, rangeStart. lia.
Qed.

Lemma rows_match_showing_text_witness :
  Z.of_nat (List.length (slice (setPageNumber 1 initialState)
                               twenty_courses))
  = rangeEnd 10 1 20 - rangeStart 10 1
  /\ Z.of_nat (List.length (slice (setPageNumber 1 initialState)
                                  twenty_courses)) <= 10.
Proof.
  exact (rows_match_showing_text twenty_courses
           (setPageNumber 1 initialState)
           ltac:(simpl; lia) ltac:(simpl; lia) ltac:(simpl; lia)).
Defined.

(** ** Sorting and the toggles *)

(** X10. A click on a column header makes that column the sort attribute.
    On a new column the direction is ascending; on the current column the
    direction flips, so two clicks on the current column restore the state.
    The click changes neither the filter nor the page size or number. *)
Theorem toggleSort_behaviour :
  forall (a : attribute) (st : ViewState),
    sort_attribute (sort (toggleSort a st)) = a
    /\ (sort_attribute (sort st) <> a ->
        sort_direction (sort (toggleSort a st)) = asc
        /\ sort (toggleSort a (toggleSort a st)) = mkSort a desc)
    /\ (sort_attribute (sort st) = a ->
        sort_direction (sort (toggleSort a st))
        <> sort_direction (sort st)
        /\ toggleSort a (toggleSort a st) = st)
    /\ (forall courses, filtered (toggleSort a st) courses
                        = filtered st courses)
    /\ pageSize (toggleSort a st) = pageSize st
    /\ pageNumber (toggleSort a st) = pageNumber st.
Proof.
  intros a [[attr d] ? ? ? ? ? ? ? ? ? ? ? ?].
  split; [|split; [|split; [|split; [|split]]]].
  - destruct attr, a; reflexivity.
  - simpl. intros H. destruct attr, a; try congruence; split; reflexivity.
  - simpl. intros <-.
    destruct attr, d; simpl; split; (discriminate || reflexivity).
  - intros courses. destruct attr, a; reflexivity.
  - destruct attr, a; reflexivity.
  - destruct attr, a; reflexivity.
Qed.

(** X11. Sorting only rearranges: the current collection is a permutation
    of the filtered one, whatever the sort attribute, the direction and
    the convention of the sort, so the result count does not depend on the
    sort. *)
Theorem current_permutes_filtered :
  forall (localeCompare : string -> string -> number)
         (cv : ArraySort.convention) (st : ViewState)
         (courses : list Course),
    Permutation (current localeCompare cv st courses) (filtered st courses)
    /\ forall a, resultCount localeCompare cv courses (toggleSort a st)
                 = resultCount localeCompare cv courses st.
Proof.
  intros lc cv st courses. split.
  - apply sort_perm.
  - intros a. unfold resultCount, current.
    rewrite !sort_length. f_equal. f_equal.
    unfold toggleSort. now destruct (sort_attribute (sort st)), a.
Qed.

Lemma keeps_hideDeprecated (st : ViewState) (c : Course) :
  keeps (setHideDeprecated true st) c
  = keeps (setHideDeprecated false st) c && negb (isDeprecated c).
Proof.
  unfold keeps. simpl.
  destruct (isDeprecated c), (onlyShowFoundational st), (isFoundational c);
    simpl; rewrite ?andb_true_r, ?andb_false_r; reflexivity.
Qed.

Lemma keeps_onlyShowFoundational (st : ViewState) (c : Course) :
  keeps (setOnlyShowFoundational true st) c
  = keeps (setOnlyShowFoundational false st) c && isFoundational c.
Proof.
  unfold keeps. simpl.
  destruct (isDeprecated c), (hideDeprecated st), (isFoundational c);
    simpl; rewrite ?andb_true_r, ?andb_false_r; reflexivity.
Qed.

Lemma filter_and {A : Type} (f g : A -> bool) (l : list A) :
  filter (fun x => f x && g x) l = filter g (filter f l).
Proof.
  induction l as [|x l IH]; simpl; [reflexivity|].
  destruct (f x); simpl; [destruct (g x)|]; now rewrite IH.
Qed.

(** X12. Switching "Hide deprecated" on removes exactly the deprecated
    courses from what the same state shows with the toggle off, and
    "Foundational only" keeps exactly the foundational ones. *)
Theorem toggles_remove_exactly :
  forall (st : ViewState) (courses : list Course),
    filtered (setHideDeprecated true st) courses
    = filter (fun c => negb (isDeprecated c))
             (filtered (setHideDeprecated false st) courses)
    /\ filtered (setOnlyShowFoundational true st) courses
       = filter isFoundational
                (filtered (setOnlyShowFoundational false st) courses).
Proof.
  intros st courses. unfold filtered. rewrite <- !filter_and. split.
  - apply filter_ext. intros c. apply keeps_hideDeprecated.
  - apply filter_ext. intros c. apply keeps_onlyShowFoundational.
Qed.

(** ** Order of the bounds *)

Lemma SFcompare_refl (x : spec_float) :
  x <> S754_nan -> SFcompare x x = Some Eq.
Proof.
  destruct x as [s|s| |s m e]; intros H; simpl; try congruence.
  - now destruct s.
  - rewrite Z.compare_refl, Pos.compare_cont_refl. now destruct s.
Qed.

Lemma SFleb_trans (a b c : spec_float) :
  SFleb a b = true -> SFleb b c = true -> SFleb a c = true.
Proof.
  unfold SFleb.
  destruct a as [sa|sa| |sa ma ea], b as [sb|sb| |sb mb eb],
    c as [sc|sc| |sc mc ec]; simpl;
    try discriminate; try reflexivity;
    try (destruct sa, sb, sc; simpl; (discriminate || reflexivity || idtac));
    try (destruct sa, sb; simpl; (discriminate || reflexivity || idtac));
    try (destruct sa, sc; simpl; (discriminate || reflexivity || idtac));
    try (destruct sb, sc; simpl; (discriminate || reflexivity || idtac)).
  all: try (destruct sa; simpl; (discriminate || reflexivity || idtac)).
  all: try (destruct sb; simpl; (discriminate || reflexivity || idtac)).
  all: try (destruct sc; simpl; (discriminate || reflexivity || idtac)).
  all: change (PosDef.Pos.compare_cont Eq) with Pos.compare.
  all: destruct (Z.compare_spec ea eb), (Z.compare_spec eb ec),
         (Z.compare_spec ea ec); try lia; simpl; try discriminate;
         try reflexivity.
  all: destruct (Pos.compare_spec ma mb), (Pos.compare_spec mb mc),
         (Pos.compare_spec ma mc); simpl; try discriminate;
         try reflexivity; try lia.
Qed.

Lemma JS_le_refl (v : number) :
  PrimFloat.is_nan v = false -> JS.le v v = true.
Proof.
  unfold PrimFloat.is_nan, JS.le. rewrite FloatAxioms.eqb_spec, leb_spec.
  unfold SFeqb, SFleb. intros H.
  destruct (Prim2SF v) eqn:E; try (rewrite SFcompare_refl; congruence).
  discriminate H.
Qed.

Lemma JS_le_trans (a b c : number) :
  JS.le a b = true -> JS.le b c = true -> JS.le a c = true.
Proof.
  unfold JS.le. rewrite !leb_spec. apply SFleb_trans.
Qed.

(** X13. Both ends of a range are included: with an admissible range
    (lower bound not above the upper bound, neither NaN), a value equal to
    the lower bound passes and a value equal to the upper bound passes. *)
Theorem range_includes_its_ends :
  forall min max : number,
    PrimFloat.is_nan min = false -> PrimFloat.is_nan max = false ->
    JS.le min max = true ->
    between (Some min) min max = true /\ between (Some max) min max = true.
Proof.
  intros lo hi Hlo Hhi Hle. unfold between, JS.ge.
  fold (JS.le lo lo). fold (JS.le lo hi).
  now rewrite !JS_le_refl, Hle.
Qed.

Lemma range_includes_its_ends_witness :
  between (Some 1%float) 1%float 5%float = true
  /\ between (Some 5%float) 1%float 5%float = true.
Proof.
  exact (range_includes_its_ends 1%float 5%float eq_refl eq_refl eq_refl).
Defined.

Lemma between_bounds_ordered (v min max : number) :
  between (Some v) min max = true -> JS.le min max = true.
Proof.
  unfold between, JS.ge. intros H. apply andb_true_iff in H.
  destruct H as [H1 H2]. now apply (JS_le_trans min v max).
Qed.

(** X14. When the effective minimum of an attribute is above its effective
    maximum, the filter keeps only courses that lack the attribute. *)
Theorem inverted_range_keeps_only_absent :
  forall (n : numeric) (st : ViewState) (courses : list Course),
    JS.le (effective n Lower st) (effective n Upper st) = false ->
    Forall (fun c => value_of n c = None) (filtered st courses).
Proof.
  intros n st courses Hinv. apply Forall_forall. intros c Hc.
  apply filter_In in Hc. destruct Hc as [_ Hk].
  apply keeps_true_iff in Hk. destruct Hk as [Hr _]. specialize (Hr n).
  destruct (value_of n c) as [v|]; [|reflexivity].
  destruct Hr as [H1 H2].
  rewrite (JS_le_trans _ v _ H1 H2) in Hinv. discriminate.
Qed.

Lemma inverted_range_keeps_only_absent_witness :
  Forall (fun c => value_of NRating c = None)
         (filtered (onBlur NRating Lower 4%float
                      (onBlur NRating Upper 2%float initialState))
                   twenty_courses).
Proof.
  exact (inverted_range_keeps_only_absent NRating
           (onBlur NRating Lower 4%float
              (onBlur NRating Upper 2%float initialState))
           twenty_courses eq_refl).
Defined.

(** X15. Tightening never adds a course: if every effective range of a
    second state lies within the corresponding range of the first, and
    every toggle that is on in the first is on in the second, then every
    course the second state keeps is kept by the first. *)
Theorem tighter_criteria_keep_fewer :
  forall (st st' : ViewState) (courses : list Course),
    (forall n, JS.le (effective n Lower st) (effective n Lower st') = true
               /\ JS.le (effective n Upper st') (effective n Upper st) = true) ->
    (hideDeprecated st = true -> hideDeprecated st' = true) ->
    (onlyShowFoundational st = true -> onlyShowFoundational st' = true) ->
    incl (filtered st' courses) (filtered st courses).
Proof.
  intros st st' courses Hb Hd Hf c Hc.
  apply filter_In in Hc. destruct Hc as [Hin Hk].
  apply filter_In. split; [exact Hin|].
  apply keeps_true_iff in Hk. apply keeps_true_iff.
  destruct Hk as (Hr & Hd' & Hf'). repeat split.
  - intros n. specialize (Hr n). destruct (Hb n) as [Hlo Hhi].
    unfold RangeFilter_passes in *.
    destruct (value_of n c) as [v|]; [|exact I].
    destruct Hr as [H1 H2]. split.
    + now apply (JS_le_trans _ (effective n Lower st') _).
    + now apply (JS_le_trans _ (effective n Upper st') _).
  - intros H. apply Hd'. now apply Hd.
  - intros H. apply Hf'. now apply Hf.
Qed.

Lemma tighter_criteria_keep_fewer_witness :
  incl (filtered (onBlur NRating Lower 3%float initialState) twenty_courses)
       (filtered initialState twenty_courses).
Proof.
  apply (tighter_criteria_keep_fewer initialState
           (onBlur NRating Lower 3%float initialState) twenty_courses).
  - intros n. destruct n; split; reflexivity.
  - simpl. intros H. exact H.
  - simpl. intros H. exact H.
Defined.

(** * [getCourse]: from a course code to the query parameters *)

Module GetCourseFacts.

Import GetCourse.

Lemma hyphen_outside_A_z : in_A_z hyphen = false.
Proof. reflexivity. Qed.

Lemma span_A_z_split (s d tl : jsstring) :
  span_A_z s = (d, tl) ->
  s = d ++ tl /\ forallb in_A_z d = true.
Proof.
  revert d tl. induction s as [|c s IH]; intros d tl H; simpl in H.
  - injection H as <- <-. now split.
  - destruct (in_A_z c) eqn:E.
    + destruct (span_A_z s) as [d' tl'] eqn:Es. injection H as <- <-.
      destruct (IH d' tl' eq_refl) as [-> Hd]. simpl. rewrite E. now split.
    + injection H as <- <-. now split.
Qed.

Lemma span_A_z_stops (d : jsstring) (h : code_unit) (rest : jsstring) :
  forallb in_A_z d = true -> in_A_z h = false ->
  span_A_z (d ++ h :: rest) = (d, h :: rest).
Proof.
  intros Hd Hh. induction d as [|c d IH]; simpl in *.
  - now rewrite Hh.
  - apply andb_true_iff in Hd. destruct Hd as [Hc Hd].
    now rewrite Hc, IH.
Qed.

Lemma params_sound (code d n : jsstring) :
  getCourse_params code = Query d n -> regex_match code d n.
Proof.
  unfold getCourse_params, match_code.
  destruct (span_A_z code) as [d' tl] eqn:Es.
  apply span_A_z_split in Es. destruct Es as [-> Hd].
  destruct d' as [|c d']; [discriminate|].
  destruct tl as [|h [|n0 ns]]; try discriminate.
  destruct (N.eqb_spec h hyphen) as [-> |]; [|discriminate].
  destruct (forallb dot (n0 :: ns)) eqn:Hn; [|discriminate].
  simpl. intros H. injection H as <- <-.
  repeat split; try assumption; discriminate.
Qed.

Lemma params_complete (code d n : jsstring) :
  regex_match code d n -> getCourse_params code = Query d n.
Proof.
  intros (-> & Hd0 & Hd & Hn0 & Hn).
  unfold getCourse_params, match_code.
  rewrite (span_A_z_stops d hyphen n Hd hyphen_outside_A_z).
  destruct d as [|c d]; [congruence|].
  destruct n as [|n0 ns]; [congruence|].
  rewrite N.eqb_refl, Hn. reflexivity.
Qed.

(** X16. [getCourse] sends a query exactly for the codes of the form
    department, hyphen, number, where the department is one or more code
    units between "A" and "z" and the number is one or more code units
    without a line terminator; the parameters are then that department and
    that number, so that department + "-" + number is the code again. *)
Theorem getCourse_params_iff_format :
  forall code department number : jsstring,
    getCourse_params code = Query department number
    <-> code = code_of department number
        /\ department <> [] /\ forallb in_A_z department = true
        /\ number <> [] /\ forallb dot number = true.
Proof.
  intros code d n. split.
  - apply params_sound.
  - apply params_complete.
Qed.

(** X17. The second error of [getCourse], "Can't parse department or
    number", is never raised: a code either fails the format or yields
    both parameters. *)
Theorem getCourse_second_error_unreachable :
  forall code : jsstring,
    getCourse_params code = DoesNotMatchFormat
    \/ exists department number,
        getCourse_params code = Query department number.
Proof.
  intros code. unfold getCourse_params.
  destruct (match_code code) as [[d n]|] eqn:E; [|now left].
  right. unfold match_code in E.
  destruct (span_A_z code) as [[|c d'] [|h [|n0 ns]]]; try discriminate.
  destruct (_ && _); [|discriminate].
  injection E as <- <-. simpl. eauto.
Qed.

(** The department may hold the punctuation between "Z" and "a", and the
    number may hold further hyphens. *)
Example getCourse_params_example :
  getCourse_params (of_string "C_S-6200-O01")
  = Query (of_string "C_S") (of_string "6200-O01").
Proof. reflexivity. Qed.

End GetCourseFacts.

(** * [classNames] *)

Lemma string_append_assoc (a b c : string) :
  ((a ++ b) ++ c = a ++ (b ++ c))%string.
Proof.
  induction a as [|x a IH]; simpl; [reflexivity | now rewrite IH].
Qed.

Lemma join_nonempty (l : list string) :
  l <> [] -> forallb Boolean_string l = true ->
  Boolean_string (String.concat " " l) = true.
Proof.
  destruct l as [|x [|y l]]; intros Hne Hall; simpl in *.
  - congruence.
  - now rewrite andb_true_r in Hall.
  - apply andb_true_iff in Hall. destruct Hall as [Hx _].
    destruct x; [discriminate | reflexivity].
Qed.

Lemma filter_all (l : list string) :
  forallb Boolean_string (filter Boolean_string l) = true.
Proof.
  induction l as [|x l IH]; simpl; [reflexivity|].
  destruct (Boolean_string x) eqn:E; simpl; [now rewrite E|exact IH].
Qed.

Lemma join_app (l1 l2 : list string) :
  forallb Boolean_string l1 = true -> forallb Boolean_string l2 = true ->
  String.concat " " (l1 ++ l2)
  = join_classes (String.concat " " l1) (String.concat " " l2).
Proof.
  intros H1 H2. unfold join_classes.
  induction l1 as [|x [|y l1] IH].
  - reflexivity.
  - simpl in H1. rewrite andb_true_r in H1. simpl. rewrite H1.
    destruct l2 as [|z l2]; [reflexivity|].
    now rewrite (join_nonempty (z :: l2)).
  - assert (Hy : forallb Boolean_string (y :: l1) = true).
    { simpl in H1. now apply andb_true_iff in H1. }
    specialize (IH Hy).
    rewrite (join_nonempty (y :: l1)) in IH by (discriminate || exact Hy).
    change (String.concat " " ((x :: y :: l1) ++ l2))
      with (x ++ " " ++ String.concat " " ((y :: l1) ++ l2))%string.
    change (String.concat " " (x :: y :: l1))
      with (x ++ " " ++ String.concat " " (y :: l1))%string.
    rewrite IH.
    replace (Boolean_string (x ++ " " ++ String.concat " " (y :: l1)))
      with true.
    + destruct (Boolean_string (String.concat " " l2)); [|reflexivity].
      now rewrite !string_append_assoc.
    + simpl in H1. apply andb_true_iff in H1. destruct H1 as [Hx _].
      destruct x; [discriminate | reflexivity].
Qed.

(** X18. [classNames] of two lists put together is the two results joined
    by one space, or just the one that is not empty: empty entries never
    leave a leading, trailing or doubled separator. *)
Theorem classNames_app :
  forall xs ys : list string,
    classNames (xs ++ ys) = join_classes (classNames xs) (classNames ys).
Proof.
  intros xs ys. unfold classNames. rewrite filter_app.
  apply join_app; apply filter_all.
Qed.

(** * The whole view: filter, sort, page *)

Lemma filter_precedes {A : Type} (f : A -> bool) (x y : A) (l : list A) :
  f x = true -> f y = true -> precedes x y l -> precedes x y (filter f l).
Proof.
  intros Hx Hy (l1 & l2 & l3 & ->).
  exists (filter f l1), (filter f l2), (filter f l3).
  rewrite filter_app. simpl. rewrite Hx, filter_app. simpl. now rewrite Hy.
Qed.

(** X19. Two courses that pass the filter and have the same present value
    of the numeric sort attribute are shown in the order they have in the
    input, in either direction and under either convention of the sort. *)
Theorem equal_keys_keep_input_order :
  forall (localeCompare : string -> string -> number)
         (cv : ArraySort.convention) (st : ViewState) (n : numeric)
         (d : direction) (courses : list Course) (a b : Course)
         (k : number),
    sort st = mkSort (attribute_of n) d ->
    keeps st a = true -> keeps st b = true ->
    value_of n a = Some k -> value_of n b = Some k ->
    precedes a b courses ->
    precedes a b (current localeCompare cv st courses).
Proof.
  intros lc cv st n d courses a b k Hs Ha Hb Hka Hkb Hp.
  unfold current. rewrite Hs.
  apply (equal_present_keys_keep_order lc cv n d _ a b k Hka Hkb).
  now apply filter_precedes.
Qed.

Lemma equal_keys_keep_input_order_witness :
  precedes (sample 3) (sample 7)
           (current (fun _ _ => 0%float) ArraySort.earlier_first
                    initialState twenty_courses).
Proof.
  apply (equal_keys_keep_input_order (fun _ _ => 0%float)
           ArraySort.earlier_first initialState NReviewCount desc
           twenty_courses (sample 3) (sample 7) 5%float);
    try reflexivity.
  exists (map sample (seq 0 3)), (map sample (seq 4 3)),
    (map sample (seq 8 12)).
  reflexivity.
Defined.

(** X20. With a numeric sort attribute, the current collection is the
    kept courses that have the attribute followed by the kept courses that
    lack it, in either direction and under either convention: the two parts
    together are exactly the courses the filter keeps. *)
Theorem current_absent_last :
  forall (localeCompare : string -> string -> number)
         (cv : ArraySort.convention) (st : ViewState) (n : numeric)
         (d : direction) (courses : list Course),
    sort st = mkSort (attribute_of n) d ->
    exists present absent,
      current localeCompare cv st courses = present ++ absent
      /\ Forall (fun c => value_of n c <> None) present
      /\ Forall (fun c => value_of n c = None) absent
      /\ Permutation (present ++ absent) (filtered st courses).
Proof.
  intros lc cv st n d courses Hs. unfold current. rewrite Hs.
  destruct (sorted_absent_last lc cv n d (filtered st courses))
    as (present & absent & E & Hp & Ha).
  exists present, absent. repeat split; try assumption.
  rewrite <- E. apply sort_perm.
Qed.

Lemma current_absent_last_witness :
  let A := unrated "A" in
  let B := rated "B" 4%float in
  let C := unrated "C" in
  let D := rated "D" 2%float in
  let st := toggleSort Rating (onBlur NReviewCount Lower 0%float initialState) in
  current (fun _ _ => 0%float) ArraySort.later_first st [A; B; C; D]
  = [D; B; A; C]
  /\ current (fun _ _ => 0%float) ArraySort.earlier_first
             (toggleSort Rating st) [A; B; C; D]
     = [B; D; C; A]
  /\ exists present absent,
      current (fun _ _ => 0%float) ArraySort.later_first st [A; B; C; D]
      = present ++ absent
      /\ Forall (fun c => value_of NRating c <> None) present
      /\ Forall (fun c => value_of NRating c = None) absent
      /\ Permutation (present ++ absent) (filtered st [A; B; C; D]).
Proof.
  cbv zeta. split; [reflexivity|]. split; [reflexivity|].
  exact (current_absent_last (fun _ _ => 0%float) ArraySort.later_first
           (toggleSort Rating
              (onBlur NReviewCount Lower 0%float initialState))
           NRating asc
           [unrated "A"; rated "B" 4%float; unrated "C"; rated "D" 2%float]
           eq_refl).
Defined.

(** X21. After the page effect, with a positive page size: a second run
    of the effect changes nothing; the page does not start beyond the end;
    and the page starts before the end (or the collection is empty)
    exactly unless the effect had to act on a non-empty collection whose
    length is a multiple of the page size. *)
Theorem page_effect_characterised :
  forall (cur : list Course) (st : ViewState),
    0 < pageSize st ->
    let len := Z.of_nat (List.length cur) in
    let st' := pageEffect cur st in
    pageEffect cur st' = st'
    /\ pageNumber st' * pageSize st' <= len
    /\ (page_in_range cur st'
        <-> pageSize st * pageNumber st < len \/ len = 0
            \/ len mod pageSize st <> 0).
Proof.
  intros cur st Hs len st'. subst len st'. split; [|split].
  - apply pageEffect_idempotent.
  - rewrite pageEffect_pageSize. now apply pageEffect_upper.
  - now apply pageEffect_in_range_iff.
Qed.

Lemma page_effect_characterised_witness :
  let cur := map sample (seq 0 15) in
  let st := setPageNumber 2 initialState in
  pageNumber (pageEffect cur st) = 1 /\ page_in_range cur (pageEffect cur st).
Proof.
  intros cur st.
  pose proof (page_effect_characterised cur st ltac:(simpl; lia)) as H.
  split; [reflexivity|].
  apply (proj2 (proj2 H)). right. right. vm_compute. discriminate.
Defined.

Section NextAndPrevious.

Variable localeCompare : string -> string -> number.
Variable cv : ArraySort.convention.
Variable courses : list Course.

Local Abbreviation count := (resultCount localeCompare cv courses).
Local Abbreviation step := (update localeCompare cv courses).

Lemma current_setPageNumber (v : Z) (st : ViewState) :
  current localeCompare cv (setPageNumber v st) courses
  = current localeCompare cv st courses.
Proof. reflexivity. Qed.

Lemma step_previous (st : ViewState) :
  0 < pageSize st -> 0 <= pageNumber st ->
  pageNumber st * pageSize st <= count st ->
  pageNumber (step st PrevPage) = Z.max (pageNumber st - 1) 0
  /\ (0 < pageNumber st ->
      page_in_range (current localeCompare cv st courses)
                    (step st PrevPage)).
Proof.
  intros Hs Hn Hok. unfold update, handle, decrementPageNumber, hasPrevPage.
  cbv zeta. unfold resultCount in Hok.
  destruct (Z.eqb_spec (pageNumber st) 0) as [H0 | H0]; simpl negb; cbv iota.
  - split; [|lia]. unfold pageEffect.
    destruct (_ >=? _) eqn:E; simpl; [|lia].
    rewrite H0 in E. apply Z.geb_le in E.
    assert (Z.of_nat (List.length (current localeCompare cv st courses)) = 0)
      as -> by lia.
    rewrite Z.div_0_l by lia. lia.
  - rewrite current_setPageNumber.
    rewrite pageEffect_idle by (simpl; nia).
    split; [simpl; lia|]. intros _. unfold page_in_range. simpl. nia.
Qed.

Lemma step_next (st : ViewState) :
  0 < pageSize st -> 0 <= pageNumber st ->
  pageNumber st * pageSize st <= count st ->
  pageNumber (step st NextPage) = pageNumber st
  \/ pageNumber (step st NextPage) = pageNumber st + 1.
Proof.
  intros Hs Hn Hok. unfold update, handle, incrementPageNumber, hasNextPage.
  cbv zeta. unfold resultCount in *.
  set (len := Z.of_nat (List.length (current localeCompare cv st courses)))
    in *.
  destruct (Z.leb_spec (pageNumber st * pageSize st + pageSize st - 1) len)
    as [Hnext | Hnext].
  - rewrite current_setPageNumber. fold len. unfold pageEffect. fold len.
    simpl pageSize. simpl pageNumber.
    destruct (Z.geb_spec (pageSize st * (pageNumber st + 1)) len)
      as [Hge | Hlt]; simpl; [|now right].
    assert (len = (pageNumber st + 1) * pageSize st
            \/ len = (pageNumber st + 1) * pageSize st - 1) as [E | E]
        by nia.
    + right. rewrite E. now apply Z.div_mul; lia.
    + left. symmetry. apply (Z.div_unique _ _ _ (pageSize st - 1)); lia.
  - left. unfold pageEffect. fold len.
    destruct (Z.geb_spec (pageSize st * pageNumber st) len); simpl;
      [|reflexivity].
    assert (len = pageNumber st * pageSize st) as -> by nia.
    apply Z.div_mul. lia.
Qed.

End NextAndPrevious.

(** X22. From any state the user can reach, Previous goes back exactly one
    page (or stays on page 0) and, coming from a later page, lands on a
    page that starts before the end of the collection; Next goes forward
    by one page or leaves the page number as it is. *)
Theorem next_and_previous_move_one_page :
  forall (localeCompare : string -> string -> number)
         (cv : ArraySort.convention) (courses : list Course)
         (events : list event),
    let st := run localeCompare cv courses events in
    let step := update localeCompare cv courses in
    pageNumber (step st PrevPage) = Z.max (pageNumber st - 1) 0
    /\ (0 < pageNumber st ->
        page_in_range (current localeCompare cv st courses)
                      (step st PrevPage))
    /\ (pageNumber (step st NextPage) = pageNumber st
        \/ pageNumber (step st NextPage) = pageNumber st + 1).
Proof.
  intros lc cv courses events st step.
  assert (Hok : page_state_ok (resultCount lc cv courses st) st).
  { apply run_from_ok.
    unfold page_state_ok, resultCount. simpl. repeat split; auto; lia. }
  destruct Hok as (Hs & Hn & Hle). apply pageSizes_positive in Hs.
  destruct (step_previous lc cv courses st Hs Hn Hle) as [H1 H2].
  repeat split; try assumption.
  now apply step_next.
Qed.
